(** * ecf-sequence-server: the sequence store of [internal/dbf/manager.go]

    A shallow embedding of [Manager.GetSequence], [Manager.GetRecordTypes]
    and [parseInt], together with the parts of the Go standard library they
    call ([strings], [strconv], [fmt]) and the table-file capability
    (package [godbf]) they are written against.

    The mutex [Manager.mu] is held for the whole body of both operations;
    the embedding describes one call at a time, as a function from the
    state of the world before the call to the result and the state after. *)

From Stdlib Require Import ZArith String Ascii List Bool Lia.
From stdpp Require Import base option list strings gmap.

Local Open Scope string_scope.
Local Open Scope Z_scope.

(** ** Go values *)

(** Go's [error] values of the layers below the store are kept as their
    message. *)
Definition error : Type := string.

(** [int64]: a [Z] in [[MinInt64, MaxInt64]]; arithmetic wraps around. *)
Definition MinInt64 : Z := - 2 ^ 63.
Definition MaxInt64 : Z := 2 ^ 63 - 1.

Definition isInt64 (z : Z) : Prop := MinInt64 <= z <= MaxInt64.

Definition wrap64 (z : Z) : Z := (z + 2 ^ 63) mod 2 ^ 64 - 2 ^ 63.

(** [a + b] on [int64]. *)
Definition add64 (a b : Z) : Z := wrap64 (a + b).

(** [uint64]: a [Z] in [[0, maxUint64]]; arithmetic wraps around. *)
Definition maxUint64 : Z := 2 ^ 64 - 1.

Definition wrapU64 (z : Z) : Z := z mod 2 ^ 64.

(** A Go string is a sequence of bytes, as [string] is here. *)
Definition bytes (codes : list nat) : string :=
  string_of_list_ascii (map ascii_of_nat codes).

Definition revString (s : string) : string :=
  string_of_list_ascii (rev (list_ascii_of_string s)).

(** The slice expressions [s[n:]] and [s[:n]]. *)
Definition sliceFrom (n : nat) (s : string) : string :=
  String.substring n (String.length s - n) s.

Definition sliceTo (n : nat) (s : string) : string := String.substring 0 n s.

(** ** Package [strings] *)

Module Strings.

(** [strings.HasPrefix(s, prefix)]. *)
Definition HasPrefix (s prefix : string) : bool := String.prefix prefix s.

(** The UTF-8 encodings of the runes for which [unicode.IsSpace] holds:
    tab, line feed, vertical tab, form feed, carriage return, space,
    U+0085, U+00A0, U+1680, U+2000 to U+200A, U+2028, U+2029, U+202F,
    U+205F and U+3000. *)
Definition spaceRunes : list string :=
  map bytes
    [ [9]; [10]; [11]; [12]; [13]; [32]; [194; 133]; [194; 160];
      [225; 154; 128];
      [226; 128; 128]; [226; 128; 129]; [226; 128; 130]; [226; 128; 131];
      [226; 128; 132]; [226; 128; 133]; [226; 128; 134]; [226; 128; 135];
      [226; 128; 136]; [226; 128; 137]; [226; 128; 138];
      [226; 128; 168]; [226; 128; 169]; [226; 128; 175];
      [226; 129; 159]; [227; 128; 128] ]%nat.

(** The rest of [s] after one of [runes], when [s] starts with one. *)
Fixpoint stripRune (runes : list string) (s : string) : option string :=
  match runes with
  | [] => None
  | r :: runes' =>
      if String.prefix r s
      then Some (String.substring (String.length r)
                   (String.length s - String.length r) s)
      else stripRune runes' s
  end.

(** [strings.TrimLeftFunc(s, unicode.IsSpace)] when [runes] is
    [spaceRunes]; [fuel] bounds the number of runes removed. *)
Fixpoint trimLeft (runes : list string) (fuel : nat) (s : string) : string :=
  match fuel with
  | O => s
  | S fuel' =>
      match stripRune runes s with
      | Some rest => trimLeft runes fuel' rest
      | None => s
      end
  end.

(** [strings.TrimSpace(s)]: leading and trailing white space removed. The
    trailing runes are found from the end of the string, as
    [utf8.DecodeLastRuneInString] does. *)
Definition TrimSpace (s : string) : string :=
  let s1 := trimLeft spaceRunes (String.length s) s in
  revString
    (trimLeft (map revString spaceRunes) (String.length s1) (revString s1)).

Definition upperByte (c : ascii) : ascii :=
  let n := nat_of_ascii c in
  if (97 <=? n)%nat && (n <=? 122)%nat then ascii_of_nat (n - 32) else c.

(** [strings.ToUpper(s)] on the bytes of [s]: the letters [a] to [z] are
    mapped to upper case. On a string with bytes outside ASCII Go maps
    runes instead; no rune other than [a] and [b] has [A] or [B] as its
    upper case, so the comparisons of the result with ["A"] and ["B"] in
    [GetSequence] are the same for every string. *)
Fixpoint ToUpper (s : string) : string :=
  match s with
  | EmptyString => EmptyString
  | String c s' => String (upperByte c) (ToUpper s')
  end.

(** [strings.HasSuffix(s, suffix)]. *)
Definition HasSuffix (s suffix : string) : bool :=
  (String.length suffix <=? String.length s)%nat &&
  String.eqb (sliceFrom (String.length s - String.length suffix) s) suffix.

(** [strings.TrimSuffix(s, suffix)]. *)
Definition TrimSuffix (s suffix : string) : string :=
  if HasSuffix s suffix
  then sliceTo (String.length s - String.length suffix) s
  else s.

End Strings.

(** ** Package [strconv] *)

Module Strconv.

Inductive NumError : Type := ErrSyntax | ErrRange.

(** The value of a decimal digit. *)
Definition digitVal (c : ascii) : option Z :=
  let n := Z.of_nat (nat_of_ascii c) in
  if (48 <=? n) && (n <=? 57) then Some (n - 48) else None.

(** The loop of [ParseUint(s, 10, 64)] over the bytes of [s], with [n] the
    number read so far. A byte that is not a decimal digit is a syntax
    error with the value 0 (a letter is a digit of a larger base, refused
    in base 10 like any other byte). The loop stops with [ErrRange] and the
    largest [uint64] as soon as [n * 10] or [n * 10 + d] would overflow:
    [maxUint64 / 10 + 1] is the [cutoff] of the source, and the sum is
    compared with [n * 10] after wrapping, as the source does. *)
Fixpoint parseUintFrom (s : string) (n : Z) : Z * option NumError :=
  match s with
  | EmptyString => (n, None)
  | String c s' =>
      match digitVal c with
      | None => (0, Some ErrSyntax)
      | Some d =>
          if maxUint64 / 10 + 1 <=? n then (maxUint64, Some ErrRange)
          else
            let n10 := wrapU64 (n * 10) in
            let n1 := wrapU64 (n10 + d) in
            if (n1 <? n10) || (maxUint64 <? n1)
            then (maxUint64, Some ErrRange)
            else parseUintFrom s' n1
      end
  end.

(** [strconv.ParseUint(s, 10, 64)] *)
Definition ParseUint (s : string) : Z * option NumError :=
  match s with
  | EmptyString => (0, Some ErrSyntax)
  | _ => parseUintFrom s 0
  end.

(** [strconv.ParseInt(s, 10, 64)]: the sign is taken off, the rest goes
    to [ParseUint]. A syntax error gives the value 0; a number out of
    range, which includes every range error of [ParseUint], gives the
    nearest [int64] with [ErrRange]. *)
Definition ParseInt (s : string) : Z * option NumError :=
  match s with
  | EmptyString => (0, Some ErrSyntax)
  | String c s' =>
      let neg := Ascii.eqb c "-" in
      let body := if Ascii.eqb c "+" || Ascii.eqb c "-" then s' else s in
      match ParseUint body with
      | (_, Some ErrSyntax) => (0, Some ErrSyntax)
      | (un, _) =>
          if negb neg && (2 ^ 63 <=? un) then (MaxInt64, Some ErrRange)
          else if neg && (2 ^ 63 <? un) then (MinInt64, Some ErrRange)
          else (if neg then - un else un, None)
      end
  end.

Definition digitChar (d : Z) : ascii := ascii_of_nat (Z.to_nat (48 + d)).

(** The decimal digits of [u] in front of [acc], least significant digit
    written first, as [formatBits] fills its buffer from the end. *)
Fixpoint formatBits (fuel : nat) (u : Z) (acc : string) : string :=
  match fuel with
  | O => acc
  | S fuel' =>
      if u <? 10 then String (digitChar u) acc
      else formatBits fuel' (u / 10) (String (digitChar (u mod 10)) acc)
  end.

(** [strconv.FormatUint(u, 10)] for [u < 2^64], which has at most 20
    digits. *)
Definition FormatUint (u : Z) : string := formatBits 20 u EmptyString.

(** [strconv.FormatInt(n, 10)]. *)
Definition FormatInt (n : Z) : string :=
  if n <? 0 then String "-" (FormatUint (- n)) else FormatUint n.

End Strconv.

(** ** Package [fmt] *)

Module Fmt.

Fixpoint zeros (n : nat) : string :=
  match n with
  | O => EmptyString
  | S n' => String "0" (zeros n')
  end.

(** The verb [%010d] on an [int64]: the digits are padded with zeros to
    the width 10, of which a minus sign takes one place. *)
Definition pad010d (n : Z) : string :=
  let digits := Strconv.FormatUint (Z.abs n) in
  let prec := if n <? 0 then 9%nat else 10%nat in
  let padded := zeros (prec - String.length digits) +:+ digits in
  if n <? 0 then String "-" padded else padded.

(** [fmt.Sprintf("%s%010d", s, n)]. *)
Definition Sprintf_s_010d (s : string) (n : Z) : string := s +:+ pad010d n.

End Fmt.

(** ** The table-file capability

    [GetSequence] and [GetRecordTypes] reach the table file only through
    package [godbf], which is not part of this repository. Its operations
    are taken as a parameter: [File] is the contents of the file at
    [Manager.dbfPath], [Table] the [*godbf.DbfTable] read from it. An
    operation that returns [(value, err)] in Go returns the pair here, with
    [None] for a nil error; an operation that changes the table returns the
    changed table. *)

Class TableFile (File Table : Type) : Type := {
  (** [godbf.NewFromFile(path, "latin1")] *)
  NewFromFile : File -> Table + error;
  (** [godbf.SaveToFile(table, path)]: the contents of the file after the
      call, and the error. *)
  SaveToFile : Table -> File -> File * option error;
  (** [table.NumberOfRecords()] *)
  NumberOfRecords : Table -> nat;
  (** [table.RowIsDeleted(i)] *)
  RowIsDeleted : Table -> nat -> bool;
  (** [table.FieldValueByName(i, name)] *)
  FieldValueByName : Table -> nat -> string -> string * option error;
  (** [table.Int64FieldValueByName(i, name)] *)
  Int64FieldValueByName : Table -> nat -> string -> Z * option error;
  (** [table.SetFieldValueByName(i, name, value)] *)
  SetFieldValueByName : Table -> nat -> string -> string -> Table * option error
}.

(** ** The world of a [Manager] *)

(** The operations a call performs on the file at [Manager.dbfPath]. *)
Inductive FileOp : Type := OpOpen | OpSave.

(** [disk] is the contents of the table file, [fileOps] the operations
    performed on it so far, oldest first, and [sequenceLog] the messages
    handed to [Manager.Log] (the time stamp in front of each is left out). *)
Record World (File : Type) : Type := mkWorld {
  disk : File;
  fileOps : list FileOp;
  sequenceLog : list string
}.

Arguments mkWorld {File} _ _ _.
Arguments disk {File} _.
Arguments fileOps {File} _.
Arguments sequenceLog {File} _.

(** The errors [GetSequence] and [GetRecordTypes] build with
    [fmt.Errorf]. *)
Inductive SequenceError : Type :=
  | ErrOpen (e : error)
  | ErrInvalidCTA (cta : string)
  | ErrSetField (e : error)
  | ErrNotFound (tipo : string)
  | ErrSave (e : error).

(** [err.Error()] *)
Definition errorMessage (e : SequenceError) : string :=
  match e with
  | ErrOpen e => "error abriendo DBF: " +:+ e
  | ErrInvalidCTA cta => "CTA no válido: " +:+ cta
  | ErrSetField e => "error setFieldValue: " +:+ e
  | ErrNotFound tipo => "tipo de comprobante no encontrado: " +:+ tipo
  | ErrSave e => "error guardando DBF: " +:+ e
  end.

Record ComprobanteTipo : Type := mkComprobanteTipo {
  NCFTipo : string;
  CodPFF : Z;
  Nombre : string;
  Resumen : string;
  Numero : string;
  Numero1 : Z;
  Numero2 : Z;
  FechaDoc : string;
  Minimo : Z;
  CantSecuen : Z
}.

(** [parseInt]: [strconv.ParseInt] on the trimmed string, 0 on an error. *)
Definition parseInt (s : string) : Z :=
  match Strconv.ParseInt (Strings.TrimSpace s) with
  | (val, None) => val
  | (_, Some _) => 0
  end.

(** The [switch] on [strings.ToUpper(cta)]: the field to increment. *)
Definition channelField (cta : string) : option string :=
  let upper := Strings.ToUpper cta in
  if String.eqb upper "A" then Some "NUMERO_1"
  else if String.eqb upper "B" then Some "NUMERO_2"
  else None.

(** The numbers [old + 1], ..., [old + count]. *)
Fixpoint numbersFrom (old : Z) (count : nat) : list Z :=
  match count with
  | O => []
  | S count' => (old + 1) :: numbersFrom (old + 1) count'
  end.

(** How the loop of [GetSequence] ends. *)
Inductive ScanOutcome (Table : Type) : Type :=
  | Found (i : nat) (newSeqVal : Z) (table : Table)
  | SetFailed (e : error)
  | NotFound.

Arguments Found {Table} _ _ _.
Arguments SetFailed {Table} _.
Arguments NotFound {Table}.

Section Store.

Context {File Table : Type} `{TableFile File Table}.

(** One record of [GetRecordTypes]: the fields read, the errors of
    [FieldValueByName] dropped, and the struct built from them. *)
Definition decodeRecord (table : Table) (i : nat) : ComprobanteTipo :=
  let codPffStr := fst (FieldValueByName table i "COD_PF_F") in
  let nombreStr := fst (FieldValueByName table i "NOMBRE") in
  let resumenStr := fst (FieldValueByName table i "RESUMEN") in
  let numeroStr := fst (FieldValueByName table i "NUMERO") in
  let num1Str := fst (FieldValueByName table i "NUMERO_1") in
  let num2Str := fst (FieldValueByName table i "NUMERO_2") in
  let fecDocStr := fst (FieldValueByName table i "FEC_DOC") in
  let minStr := fst (FieldValueByName table i "MINIMO") in
  let cantsStr := fst (FieldValueByName table i "CANTSECUEN") in
  let numero := Strings.TrimSpace numeroStr in
  {| NCFTipo := if (3 <=? String.length numero)%nat
                then sliceTo 3 numero else EmptyString;
     CodPFF := parseInt codPffStr;
     Nombre := Strings.TrimSpace nombreStr;
     Resumen := Strings.TrimSpace resumenStr;
     Numero := numero;
     Numero1 := parseInt num1Str;
     Numero2 := parseInt num2Str;
     FechaDoc := Strings.TrimSpace fecDocStr;
     Minimo := parseInt minStr;
     CantSecuen := parseInt cantsStr |}.

(** The loop of [GetRecordTypes] from record [i], with [remaining] records
    to go and [tipos] the slice built so far. *)
Fixpoint listRecords (table : Table) (i remaining : nat)
    (tipos : list ComprobanteTipo) : list ComprobanteTipo :=
  match remaining with
  | O => tipos
  | S remaining' =>
      if RowIsDeleted table i
      then listRecords table (S i) remaining' tipos
      else listRecords table (S i) remaining' (tipos ++ [decodeRecord table i])
  end.

(** [Manager.GetRecordTypes] *)
Definition GetRecordTypes (w : World File)
    : (list ComprobanteTipo * option SequenceError) * World File :=
  let w1 := mkWorld (disk w) (fileOps w ++ [OpOpen]) (sequenceLog w) in
  match NewFromFile (disk w) with
  | inr err => (([], Some (ErrOpen err)), w1)
  | inl table =>
      ((listRecords table 0 (NumberOfRecords table) [], None), w1)
  end.

(** The records a listing is to return, in the words of the
    specification: every record not flagged deleted, in file order. *)
Definition liveRecords (table : Table) : list nat :=
  List.filter (fun i => negb (RowIsDeleted table i))
    (List.seq 0 (NumberOfRecords table)).

(** The body of the [if strings.HasPrefix(numeroStr, tipo)] of
    [GetSequence]: the counter is read (its error dropped), incremented
    and written back as text. *)
Definition incrementCounter (table : Table) (i : nat) (fieldName : string)
    : ScanOutcome Table :=
  let seqVal := fst (Int64FieldValueByName table i fieldName) in
  let newSeqVal := add64 seqVal 1 in
  match SetFieldValueByName table i fieldName (Strconv.FormatInt newSeqVal) with
  | (_, Some err) => SetFailed err
  | (table', None) => Found i newSeqVal table'
  end.

(** The loop of [GetSequence] from record [i], with [remaining] records
    to go. *)
Fixpoint scanRecords (table : Table) (tipo fieldName : string)
    (i remaining : nat) : ScanOutcome Table :=
  match remaining with
  | O => NotFound
  | S remaining' =>
      if RowIsDeleted table i
      then scanRecords table tipo fieldName (S i) remaining'
      else
        match FieldValueByName table i "NUMERO" with
        | (_, Some _) => scanRecords table tipo fieldName (S i) remaining'
        | (numeroStr, None) =>
            let numeroStr := Strings.TrimSpace numeroStr in
            if Strings.HasPrefix numeroStr tipo
            then incrementCounter table i fieldName
            else scanRecords table tipo fieldName (S i) remaining'
        end
  end.

(** [Manager.GetSequence] *)
Definition GetSequence (tipo cta : string) (w : World File)
    : (string * Z * option SequenceError) * World File :=
  let w1 := mkWorld (disk w) (fileOps w ++ [OpOpen]) (sequenceLog w) in
  match NewFromFile (disk w) with
  | inr err => ((EmptyString, 0, Some (ErrOpen err)), w1)
  | inl table =>
      match channelField cta with
      | None => ((EmptyString, 0, Some (ErrInvalidCTA cta)), w1)
      | Some fieldName =>
          match scanRecords table tipo fieldName 0 (NumberOfRecords table) with
          | SetFailed err => ((EmptyString, 0, Some (ErrSetField err)), w1)
          | NotFound => ((EmptyString, 0, Some (ErrNotFound tipo)), w1)
          | Found _ newSeqVal table' =>
              let (disk', saveErr) := SaveToFile table' (disk w) in
              let w2 := mkWorld disk' (fileOps w1 ++ [OpSave]) (sequenceLog w) in
              match saveErr with
              | Some err => ((EmptyString, 0, Some (ErrSave err)), w2)
              | None =>
                  let sequence := Fmt.Sprintf_s_010d tipo newSeqVal in
                  ((sequence, newSeqVal, None),
                   mkWorld disk' (fileOps w2)
                     (sequenceLog w ++ ["Generated sequence: " +:+ sequence]))
              end
          end
      end
  end.

(** [count] calls of [GetSequence], one after the other: the numbers they
    return (the sequence and the error left out), and the world after the
    last. *)
Fixpoint callsInTurn (count : nat) (tipo cta : string) (w : World File)
    : list Z * World File :=
  match count with
  | O => ([], w)
  | S count' =>
      let (result, w1) := GetSequence tipo cta w in
      let (numbers, w2) := callsInTurn count' tipo cta w1 in
      (snd (fst result) :: numbers, w2)
  end.

(** The record the loop of [GetSequence] looks for, in the words of the
    specification: a record not flagged deleted whose trimmed [NUMERO]
    starts with [tipo]. *)
Definition recordMatches (table : Table) (tipo : string) (i : nat) : bool :=
  negb (RowIsDeleted table i) &&
  match FieldValueByName table i "NUMERO" with
  | (numeroStr, None) => Strings.HasPrefix (Strings.TrimSpace numeroStr) tipo
  | (_, Some _) => false
  end.

(** [i] is the first matching record in file order. *)
Definition firstMatch (table : Table) (tipo : string) (i : nat) : Prop :=
  (i < NumberOfRecords table)%nat /\
  recordMatches table tipo i = true /\
  forall j, (j < i)%nat -> recordMatches table tipo j = false.

End Store.

(** ** Package [encoding/json]: a request body decoded into a struct

    [json.NewDecoder(r.Body).Decode(&req)] reads the first JSON value of
    the body and stores it in [req], a struct whose fields are strings.
    The reading of the text is taken as given: a body is the JSON value it
    starts with, the strings of the value already unquoted. *)

#[warnings="-register-all"] Inductive JSON : Type :=
  | JNull
  | JBool (b : bool)
  | JNumber (literal : string)
  | JString (s : string)
  | JArray (elements : list JSON)
  | JObject (members : list (string * JSON)).

Module Json.

(** A struct whose fields are strings: the name each field has in JSON
    (its tag), and its value. *)
Definition Struct : Type := list (string * string).

(** The zero value of the struct with the given field names. *)
Definition zero (names : list string) : Struct :=
  map (fun name => (name, EmptyString)) names.

Definition getField (name : string) (fields : Struct) : string :=
  match List.find (fun field => String.eqb (fst field) name) fields with
  | Some field => snd field
  | None => EmptyString
  end.

(** The folding of a name under which keys are compared without regard
    to case: the letters [a] to [z] are mapped to upper case. On bytes
    outside ASCII Go folds runes; the only runes that fold to an ASCII
    letter fold to [K] or [S], which no field name of this program
    contains, so the comparison with these names is the same. *)
Definition foldName (s : string) : string := Strings.ToUpper s.

(** A value stored in a field of type [string]: a JSON string is stored,
    [null] leaves the field as it is, and any other value is an
    [UnmarshalTypeError], reported as [true]; the field is left as it is
    and the decoding goes on. *)
Definition storeString (v : JSON) (old : string) : string * bool :=
  match v with
  | JString s => (s, false)
  | JNull => (old, false)
  | JBool _ | JNumber _ | JArray _ | JObject _ => (old, true)
  end.

(** The value [v] stored in the first field whose name [matches]; [None]
    when there is none. *)
Fixpoint storeAt (matches : string -> bool) (v : JSON) (fields : Struct)
    : option (Struct * bool) :=
  match fields with
  | [] => None
  | (name, old) :: rest =>
      if matches name
      then let (new, failed) := storeString v old in
           Some ((name, new) :: rest, failed)
      else
        match storeAt matches v rest with
        | Some (rest', failed) => Some ((name, old) :: rest', failed)
        | None => None
        end
  end.

(** One member of an object: the field for [key] is the one of that
    name, or else the one whose name is [key] without regard to case; a
    key for which there is no field is passed over with its value. *)
Definition storeMember (key : string) (v : JSON) (fields : Struct)
    : Struct * bool :=
  match storeAt (String.eqb key) v fields with
  | Some result => result
  | None =>
      match storeAt (fun name => String.eqb (foldName name) (foldName key))
              v fields with
      | Some result => result
      | None => (fields, false)
      end
  end.

(** The members of an object, in their order; [failed] says that an
    error has been saved, which [Decode] returns at the end. *)
Fixpoint decodeObject (members : list (string * JSON)) (fields : Struct)
    (failed : bool) : Struct * bool :=
  match members with
  | [] => (fields, failed)
  | (key, v) :: rest =>
      let (fields', bad) := storeMember key v fields in
      decodeObject rest fields' (failed || bad)
  end.

(** [Decode] into the zero value of a struct with the fields [names]:
    [None] when it returns an error. [body] is [None] when the body holds
    no JSON value (it is empty, cut short or malformed). An object is
    stored member by member, [null] leaves the struct as it is, and any
    other value is an [UnmarshalTypeError]. *)
Definition Decode (names : list string) (body : option JSON)
    : option Struct :=
  match body with
  | None => None
  | Some JNull => Some (zero names)
  | Some (JObject members) =>
      match decodeObject members (zero names) false with
      | (fields, false) => Some fields
      | (_, true) => None
      end
  | Some (JBool _) | Some (JNumber _) | Some (JString _) | Some (JArray _) =>
      None
  end.

End Json.

(** ** The earlier version of the store and the HTTP handlers

    [GetSequence] with one argument is the version of [manager.go] before
    the channels; the handlers are those of [runHTTPServer] in
    [cmd/server/main.go] and of the earlier [main]. A request is what a
    handler reads of it: the method, the header [X-API-Key] (empty when
    absent), the remote address, and the JSON value its body starts with,
    [None] when it starts with none; each handler decodes the body into a
    struct of its own. A response is its status code and its body; the
    body of [http.Error] is the message and a line feed, a JSON body is
    kept as the value encoded. *)

Record Request : Type := mkRequest {
  reqMethod : string;
  reqAPIKey : string;
  reqRemoteAddr : string;
  reqBody : option JSON
}.

Inductive Body : Type :=
  | BodyText (text : string)
  | BodyTipos (tipos : list ComprobanteTipo)
  | BodySequence (sequence sequenceNumber : string)
  | BodySequenceV1 (sequence : string).

Record Response : Type := mkResponse {
  respStatus : Z;
  respBody : Body
}.

Definition StatusOK : Z := 200.
Definition StatusBadRequest : Z := 400.
Definition StatusUnauthorized : Z := 401.
Definition StatusMethodNotAllowed : Z := 405.
Definition StatusInternalServerError : Z := 500.

(** [http.Error(w, message, code)] *)
Definition httpError (message : string) (code : Z) : Response :=
  mkResponse code (BodyText (message +:+ String "010" EmptyString)).

Section Callers.

Context {File Table : Type} `{TableFile File Table}.

(** [Manager.Log]: the message goes to the log of the [Manager]. *)
Definition Log (message : string) (w : World File) : World File :=
  mkWorld (disk w) (fileOps w) (sequenceLog w ++ [message]).

(** The loop of the earlier [GetSequence], which reads and writes
    [NUMERO_1]. *)
Fixpoint scanRecordsV1 (table : Table) (tipo : string) (i remaining : nat)
    : ScanOutcome Table :=
  match remaining with
  | O => NotFound
  | S remaining' =>
      if RowIsDeleted table i
      then scanRecordsV1 table tipo (S i) remaining'
      else
        match FieldValueByName table i "NUMERO" with
        | (_, Some _) => scanRecordsV1 table tipo (S i) remaining'
        | (numeroStr, None) =>
            let numeroStr := Strings.TrimSpace numeroStr in
            if Strings.HasPrefix numeroStr tipo
            then
              let seqVal := fst (Int64FieldValueByName table i "NUMERO_1") in
              let newSeqVal := add64 seqVal 1 in
              match SetFieldValueByName table i "NUMERO_1"
                      (Strconv.FormatInt newSeqVal) with
              | (_, Some err) => SetFailed err
              | (table', None) => Found i newSeqVal table'
              end
            else scanRecordsV1 table tipo (S i) remaining'
        end
  end.

(** [Manager.GetSequence(tipo)] of the earlier version. *)
Definition GetSequenceV1 (tipo : string) (w : World File)
    : (string * option SequenceError) * World File :=
  let w1 := mkWorld (disk w) (fileOps w ++ [OpOpen]) (sequenceLog w) in
  match NewFromFile (disk w) with
  | inr err => ((EmptyString, Some (ErrOpen err)), w1)
  | inl table =>
      match scanRecordsV1 table tipo 0 (NumberOfRecords table) with
      | SetFailed err => ((EmptyString, Some (ErrSetField err)), w1)
      | NotFound => ((EmptyString, Some (ErrNotFound tipo)), w1)
      | Found _ newSeqVal table' =>
          let (disk', saveErr) := SaveToFile table' (disk w) in
          let w2 := mkWorld disk' (fileOps w1 ++ [OpSave]) (sequenceLog w) in
          match saveErr with
          | Some err => ((EmptyString, Some (ErrSave err)), w2)
          | None =>
              let sequence := Fmt.Sprintf_s_010d tipo newSeqVal in
              ((sequence, None),
               mkWorld disk' (fileOps w2)
                 (sequenceLog w ++ ["Generated sequence: " +:+ sequence]))
          end
      end
  end.

(** The handler of [/api/tipos]. *)
Definition handleTipos (apiKey : string) (r : Request) (w : World File)
    : Response * World File :=
  if negb (String.eqb (reqMethod r) "GET")
  then (httpError "Método no permitido" StatusMethodNotAllowed, w)
  else if negb (String.eqb (reqAPIKey r) apiKey)
  then (httpError "No autorizado" StatusUnauthorized,
        Log ("Intento de acceso no autorizado desde " +:+ reqRemoteAddr r) w)
  else
    match GetRecordTypes w with
    | ((_, Some err), w') =>
        (httpError (errorMessage err) StatusInternalServerError,
         Log ("Error obteniendo tipos: " +:+ errorMessage err) w')
    | ((tipos, None), w') => (mkResponse StatusOK (BodyTipos tipos), w')
    end.

(** The channel the handler of [/api/sequence] hands to the store. *)
Definition defaultCTA (cta : string) : string :=
  if String.eqb cta EmptyString ||
     (negb (String.eqb cta "A") && negb (String.eqb cta "B"))
  then "A" else cta.

(** The struct [req] of the handler of [/api/sequence], with the fields
    [type] and [cta], decoded from the body. *)
Definition decodeSequenceRequest (body : option JSON)
    : option (string * string) :=
  match Json.Decode ["type"; "cta"] body with
  | None => None
  | Some req => Some (Json.getField "type" req, Json.getField "cta" req)
  end.

(** The struct [req] of the earlier handler, with the field [type]
    alone. *)
Definition decodeSequenceRequestV1 (body : option JSON) : option string :=
  match Json.Decode ["type"] body with
  | None => None
  | Some req => Some (Json.getField "type" req)
  end.

(** The handler of [/api/sequence]. *)
Definition handleSequence (apiKey : string) (r : Request) (w : World File)
    : Response * World File :=
  if negb (String.eqb (reqMethod r) "POST")
  then (httpError "Método no permitido" StatusMethodNotAllowed, w)
  else if negb (String.eqb (reqAPIKey r) apiKey)
  then (httpError "No autorizado" StatusUnauthorized,
        Log ("Intento de acceso no autorizado desde " +:+ reqRemoteAddr r) w)
  else
    match decodeSequenceRequest (reqBody r) with
    | None => (httpError "Solicitud inválida" StatusBadRequest, w)
    | Some (type, cta) =>
        if negb (String.length type =? 3)%nat
        then (httpError "Tipo de secuencia inválido" StatusBadRequest, w)
        else
          match GetSequence type (defaultCTA cta) w with
          | ((_, _, Some err), w') =>
              (httpError (errorMessage err) StatusInternalServerError,
               Log ("Error generando secuencia: " +:+ errorMessage err) w')
          | ((sequence, num, None), w') =>
              (mkResponse StatusOK
                 (BodySequence sequence (Strconv.FormatInt num)), w')
          end
    end.

(** The handler of [/api/sequence] of the earlier [main], which serves
    the types that start with [E] and knows no channel. *)
Definition handleSequenceV1 (apiKey : string) (r : Request) (w : World File)
    : Response * World File :=
  if negb (String.eqb (reqMethod r) "POST")
  then (httpError "Método no permitido" StatusMethodNotAllowed, w)
  else if negb (String.eqb (reqAPIKey r) apiKey)
  then (httpError "No autorizado" StatusUnauthorized,
        Log ("Intento de acceso no autorizado desde " +:+ reqRemoteAddr r) w)
  else
    match decodeSequenceRequestV1 (reqBody r) with
    | None => (httpError "Solicitud inválida" StatusBadRequest, w)
    | Some type =>
        if negb (Strings.HasPrefix type "E") ||
           negb (String.length type =? 3)%nat
        then (httpError "Tipo de secuencia inválido" StatusBadRequest, w)
        else
          match GetSequenceV1 type w with
          | ((_, Some err), w') =>
              (httpError (errorMessage err) StatusInternalServerError,
               Log ("Error generando secuencia: " +:+ errorMessage err) w')
          | ((sequence, None), w') =>
              (mkResponse StatusOK (BodySequenceV1 sequence), w')
          end
    end.

End Callers.

(** ** Starting the [Manager] and installing the service

    [NewManager] and the installer's [validateFiles] ask the operating
    system two things: to open [sequence.log] for appending, and to
    [os.Stat] a path. The answers are taken as given. *)

Inductive StatResult : Type :=
  | StatOk
  | StatNotExist
  | StatFailed (e : error).

(** [os.IsNotExist(err)] on the error of [os.Stat]. *)
Definition IsNotExist (r : StatResult) : bool :=
  match r with
  | StatNotExist => true
  | StatOk | StatFailed _ => false
  end.

Record FileSystem : Type := mkFileSystem {
  openLog : option error;
  stat : string -> StatResult
}.

(** The paths of a [Manager]; its mutex and its log file are left to
    [World]. *)
Record Manager : Type := mkManager {
  dbfPath : string;
  cdxPath : string
}.

Inductive ManagerError : Type :=
  | ErrLogFile (e : error)
  | ErrNoDBF (path : string)
  | ErrNoCDX (path : string).

(** [NewManager] *)
Definition NewManager (fs : FileSystem) (path : string)
    : Manager + ManagerError :=
  match openLog fs with
  | Some err => inr (ErrLogFile err)
  | None =>
      if IsNotExist (stat fs path) then inr (ErrNoDBF path)
      else inl (mkManager path (Strings.TrimSuffix path ".DBF" +:+ ".CDX"))
  end.

(** [validateFiles] of [cmd/install/main.go] *)
Definition validateFiles (fs : FileSystem) (path : string)
    : option ManagerError :=
  if IsNotExist (stat fs path) then Some (ErrNoDBF path)
  else
    let cdx := Strings.TrimSuffix path ".DBF" +:+ ".CDX" in
    if IsNotExist (stat fs cdx) then Some (ErrNoCDX cdx) else None.

(** The states of a Windows service ([svc.State]). *)
Inductive SvcState : Type :=
  | Stopped
  | StartPending
  | StopPending
  | Running
  | ContinuePending
  | PausePending
  | Paused
  | UnknownState (code : Z).

Inductive VerifyError : Type :=
  | ErrConnect (e : error)
  | ErrOpenService (e : error)
  | ErrQuery (e : error)
  | ErrUnexpectedState (state : SvcState)
  | ErrTimeout.

(** The service manager as [verifyServiceStatus] sees it: the errors of
    [mgr.Connect] and [m.OpenService], and what the [k]-th call of
    [s.Query] returns. *)
Record ServiceManager : Type := mkServiceManager {
  connect : option error;
  openService : option error;
  query : nat -> SvcState + error
}.

(** The loop of [verifyServiceStatus] at its [k]-th turn, with
    [remaining] turns to go and [sleeps] seconds slept so far. *)
Fixpoint pollService (q : nat -> SvcState + error) (k remaining sleeps : nat)
    : option VerifyError * nat :=
  match remaining with
  | O => (Some ErrTimeout, sleeps)
  | S remaining' =>
      match q k with
      | inr err => (Some (ErrQuery err), sleeps)
      | inl Running => (None, sleeps)
      | inl StartPending => pollService q (S k) remaining' (S sleeps)
      | inl state => (Some (ErrUnexpectedState state), sleeps)
      end
  end.

(** [verifyServiceStatus]: the error, and the seconds slept. *)
Definition verifyServiceStatus (m : ServiceManager) : option VerifyError * nat :=
  match connect m with
  | Some err => (Some (ErrConnect err), O)
  | None =>
      match openService m with
      | Some err => (Some (ErrOpenService err), O)
      | None => pollService (query m) 0 10 0
      end
  end.

(** ** The service loop

    [Execute] of [cmd/server/main.go] reads change requests from the
    channel [r] and sends statuses on the channel [s]. It is run on the
    requests received so far; what it does is the list of its events, and
    it has returned or is waiting for the next request. *)

Inductive Cmd : Type :=
  | CmdStop
  | CmdPause
  | CmdContinue
  | CmdInterrogate
  | CmdShutdown
  | CmdOther (code : Z).

(** [svc.AcceptStop], [svc.AcceptPauseAndContinue] and
    [svc.AcceptShutdown], the bits of the Windows API. *)
Definition AcceptStop : Z := 1.
Definition AcceptPauseAndContinue : Z := 2.
Definition AcceptShutdown : Z := 4.

Record Status : Type := mkStatus {
  State : SvcState;
  Accepts : Z
}.

Record ChangeRequest : Type := mkChangeRequest {
  RequestCmd : Cmd;
  CurrentStatus : Status
}.

Inductive ServiceEvent : Type :=
  | Sent (status : Status)
  | StartServer
  | StopServer
  | Printed (message : string).

Definition cmdsAccepted : Z :=
  Z.lor (Z.lor AcceptStop AcceptShutdown) AcceptPauseAndContinue.

(** The loop of [Execute]: its events, and whether it was left. *)
Fixpoint serviceLoop (requests : list ChangeRequest)
    : list ServiceEvent * bool :=
  match requests with
  | [] => ([], false)
  | c :: requests' =>
      match RequestCmd c with
      | CmdInterrogate =>
          let (events, left) := serviceLoop requests' in
          (Sent (CurrentStatus c) :: events, left)
      | CmdStop | CmdShutdown =>
          ([Printed "Recibida señal de STOP/SHUTDOWN, cerrando el servidor.";
            StopServer], true)
      | CmdPause =>
          let (events, left) := serviceLoop requests' in
          (Sent (mkStatus Paused cmdsAccepted) :: events, left)
      | CmdContinue =>
          let (events, left) := serviceLoop requests' in
          (Sent (mkStatus Running cmdsAccepted) :: events, left)
      | CmdOther code =>
          let (events, left) := serviceLoop requests' in
          (Printed ("Recibida señal no esperada: " +:+ Strconv.FormatInt code)
             :: events, left)
      end
  end.

(** [Execute]: its events, and [(svcSpecificEC, exitCode)] when it has
    returned. *)
Definition Execute (requests : list ChangeRequest)
    : list ServiceEvent * option (bool * Z) :=
  let (events, left) := serviceLoop requests in
  let started :=
    ([Sent (mkStatus StartPending 0); StartServer;
      Sent (mkStatus Running cmdsAccepted)] ++ events)%list in
  if left
  then ((started ++ [Sent (mkStatus StopPending 0)])%list, Some (false, 0))
  else (started, None).

(** A request that ends the loop. *)
Definition stops (c : ChangeRequest) : bool :=
  match RequestCmd c with
  | CmdStop | CmdShutdown => true
  | CmdPause | CmdContinue | CmdInterrogate | CmdOther _ => false
  end.

(** ** The statistics of the load test

    [Stats] of the load-test client collects the results of the requests
    in the order they arrive. Durations are nanoseconds in an [int64]; the
    counters are [int]s of 64 bits. [RequestsPerSecond] is a [float64]:
    the type and the quotient that gives it are left open. *)

Record Result : Type := mkResult {
  Sequence : string;
  StatusCode : Z;
  Duration : Z;
  ResultError : option error;
  WorkerID : Z
}.

Section LoadTest.

Variable Float64 : Type.
Variable zeroFloat : Float64.
Variable perSecond : Z -> Z -> Float64.

Record Stats : Type := mkStats {
  TotalRequests : Z;
  SuccessfulReqs : Z;
  FailedReqs : Z;
  DuplicateSeqs : Z;
  MinDuration : Z;
  MaxDuration : Z;
  AvgDuration : Z;
  TotalDuration : Z;
  RequestsPerSecond : Float64;
  UniqueSequences : gmap string (list Z)
}.

(** [time.Hour] in nanoseconds. *)
Definition Hour : Z := 3600 * 1000000000.

(** [newStats] *)
Definition newStats : Stats :=
  mkStats 0 0 0 0 Hour 0 0 0 zeroFloat ∅.

(** Whether [addResult] counts a result as a success. *)
Definition succeeded (r : Result) : bool :=
  match ResultError r with
  | None => StatusCode r =? StatusOK
  | Some _ => false
  end.

(** [Stats.addResult] *)
Definition addResult (s : Stats) (r : Result) : Stats :=
  let total := add64 (TotalRequests s) 1 in
  if succeeded r
  then
    mkStats total (add64 (SuccessfulReqs s) 1) (FailedReqs s)
      (DuplicateSeqs s)
      (if Duration r <? MinDuration s then Duration r else MinDuration s)
      (if MaxDuration s <? Duration r then Duration r else MaxDuration s)
      (AvgDuration s)
      (add64 (TotalDuration s) (Duration r))
      (RequestsPerSecond s)
      (if String.eqb (Sequence r) EmptyString
       then UniqueSequences s
       else <[Sequence r :=
                (default [] (UniqueSequences s !! Sequence r)
                 ++ [WorkerID r])%list]>
              (UniqueSequences s))
  else
    mkStats total (SuccessfulReqs s) (add64 (FailedReqs s) 1)
      (DuplicateSeqs s) (MinDuration s) (MaxDuration s) (AvgDuration s)
      (TotalDuration s) (RequestsPerSecond s) (UniqueSequences s).

(** The loop of [calculateStats] over [UniqueSequences]: one more
    duplicate for each sequence with more than one worker. *)
Definition countDuplicates (sequences : gmap string (list Z)) (count : Z) : Z :=
  map_fold
    (fun _ workers count =>
       if (1 <? length workers)%nat then add64 count 1 else count)
    count sequences.

(** [Stats.calculateStats] *)
Definition calculateStats (totalDuration : Z) (s : Stats) : Stats :=
  mkStats (TotalRequests s) (SuccessfulReqs s) (FailedReqs s)
    (countDuplicates (UniqueSequences s) (DuplicateSeqs s))
    (MinDuration s) (MaxDuration s)
    (if 0 <? SuccessfulReqs s
     then Z.quot (TotalDuration s) (SuccessfulReqs s) else AvgDuration s)
    (TotalDuration s)
    (if 0 <? SuccessfulReqs s
     then perSecond (SuccessfulReqs s) totalDuration
     else RequestsPerSecond s)
    (UniqueSequences s).

(** The statistics of the results of a run: [main] adds them in the order
    they arrive and then calculates once. *)
Definition collect (results : list Result) : Stats :=
  fold_left addResult results newStats.

(** The sequences that a run counts: those of the results that succeeded
    with a sequence that is not empty. *)
Definition countedSequences (results : list Result) : list string :=
  List.map Sequence
    (List.filter
       (fun r => succeeded r && negb (String.eqb (Sequence r) EmptyString))
       results).

End LoadTest.

Arguments TotalRequests {Float64} _.
Arguments SuccessfulReqs {Float64} _.
Arguments FailedReqs {Float64} _.
Arguments DuplicateSeqs {Float64} _.
Arguments MinDuration {Float64} _.
Arguments MaxDuration {Float64} _.
Arguments AvgDuration {Float64} _.
Arguments TotalDuration {Float64} _.
Arguments RequestsPerSecond {Float64} _.
Arguments UniqueSequences {Float64} _.
Arguments addResult {Float64} _ _.
Arguments calculateStats {Float64} _ _ _.
Arguments collect {Float64} _ _.

(** ** What the store relies on in the capability

    [fits n] says that the counter fields of the table are wide enough for
    the decimal text of [n]. *)

Class TableLaws {File Table : Type} `{TableFile File Table}
    (fits : Z -> Prop) : Prop := {
  (** Writing a field keeps the number of records, *)
  set_NumberOfRecords : forall t i f v t',
    SetFieldValueByName t i f v = (t', None) ->
    NumberOfRecords t' = NumberOfRecords t;
  (** the deletion flags, *)
  set_RowIsDeleted : forall t i f v t' j,
    SetFieldValueByName t i f v = (t', None) ->
    RowIsDeleted t' j = RowIsDeleted t j;
  (** and every other field of every record, read as text *)
  set_FieldValue_other : forall t i f v t' j g,
    SetFieldValueByName t i f v = (t', None) ->
    j <> i \/ g <> f ->
    FieldValueByName t' j g = FieldValueByName t j g;
  (** or as a number. *)
  set_Int64FieldValue_other : forall t i f v t' j g,
    SetFieldValueByName t i f v = (t', None) ->
    j <> i \/ g <> f ->
    Int64FieldValueByName t' j g = Int64FieldValueByName t j g;
  (** A number written as decimal text is the number read back. *)
  set_Int64FieldValue_same : forall t i f n t',
    SetFieldValueByName t i f (Strconv.FormatInt n) = (t', None) ->
    (i < NumberOfRecords t)%nat -> isInt64 n -> fits n ->
    Int64FieldValueByName t' i f = (n, None);
  (** A field that is read as a number without error can be written. *)
  set_readable : forall t i f v,
    snd (Int64FieldValueByName t i f) = None ->
    snd (SetFieldValueByName t i f v) = None;
  (** A table saved without error is the table read from the file. *)
  save_NewFromFile : forall t d d',
    SaveToFile t d = (d', None) -> NewFromFile d' = inl t
}.

(** What the listing relies on besides: a counter written as decimal
    text is read back, as text, as that decimal up to white space. *)
Class TableTextLaws {File Table : Type} `{TableFile File Table}
    (fits : Z -> Prop) : Prop := {
  set_FieldValue_same : forall t i f n t',
    SetFieldValueByName t i f (Strconv.FormatInt n) = (t', None) ->
    (i < NumberOfRecords t)%nat -> isInt64 n -> fits n ->
    exists text,
      FieldValueByName t' i f = (text, None) /\
      Strings.TrimSpace text = Strconv.FormatInt n
}.

(** ** A reference table *)

Module Ref.

(** Modelled from the spec: package [godbf] is not part of the repository,
    and the specification leaves the layout of the file to it. The
    reference table has what the table-file capability of the
    specification shows: a list of field names, and records in file order,
    each a deletion flag and a text per field. *)
Record DbfRecord : Type := mkRecord {
  recDeleted : bool;
  recValues : gmap string string
}.

Record DbfTable : Type := mkTable {
  tblFields : list string;
  tblRecords : list DbfRecord
}.

Definition File : Type := option DbfTable.

Definition hasField (t : DbfTable) (name : string) : bool :=
  bool_decide (name ∈ tblFields t).

Definition noField (name : string) : error :=
  "Field name " +:+ name +:+ " does not exist".

Definition fieldText (t : DbfTable) (i : nat) (name : string) : string :=
  default EmptyString (r ← tblRecords t !! i; recValues r !! name).

Definition fieldValueByName (t : DbfTable) (i : nat) (name : string)
    : string * option error :=
  if hasField t name then (fieldText t i name, None)
  else (EmptyString, Some (noField name)).

Definition parseError (e : Strconv.NumError) : error :=
  match e with
  | Strconv.ErrSyntax => "invalid syntax"
  | Strconv.ErrRange => "value out of range"
  end.

Definition int64FieldValueByName (t : DbfTable) (i : nat) (name : string)
    : Z * option error :=
  let (n, err) := Strconv.ParseInt (fst (fieldValueByName t i name)) in
  (n, parseError <$> err).

Definition setRecordValue (name value : string) (r : DbfRecord) : DbfRecord :=
  mkRecord (recDeleted r) (<[name := value]> (recValues r)).

Definition setFieldValueByName (t : DbfTable) (i : nat) (name value : string)
    : DbfTable * option error :=
  if hasField t name
  then (mkTable (tblFields t)
          (alter (setRecordValue name value) i (tblRecords t)), None)
  else (t, Some (noField name)).

(** Modelled from the spec: the operations of [godbf] on the reference
    table. A file is a table, or cannot be opened; a save replaces the
    file. A field that does not exist is an error to read or write
    ([fieldAsText], [setField]). A field read as a number ([fieldAsInt]) is
    read as text, the empty text when the field is missing, and the text
    is handed to [strconv.ParseInt], as [Int64FieldValueByName] of [godbf]
    does: the value and the error are those of [strconv], 0 with a syntax
    error and the nearest [int64] with a range error. *)
#[global] Instance tableFile : TableFile File DbfTable := {
  NewFromFile d :=
    match d with
    | Some t => inl t
    | None => inr "open: the file cannot be read"
    end;
  SaveToFile t _ := (Some t, None);
  NumberOfRecords t := length (tblRecords t);
  RowIsDeleted t i := default false (recDeleted <$> tblRecords t !! i);
  FieldValueByName := fieldValueByName;
  Int64FieldValueByName := int64FieldValueByName;
  SetFieldValueByName := setFieldValueByName
}.

(** The fields of the table of [createTestDBF]. *)
Definition fields : list string :=
  ["COD_PF_F"; "NOMBRE"; "RESUMEN"; "NUMERO"; "NUMERO_1"; "NUMERO_2";
   "FEC_DOC"; "MINIMO"; "CANTSECUEN"].

(** A record with the given [NUMERO], [NUMERO_1] and [NUMERO_2]. *)
Definition record (deleted : bool) (numero numero1 numero2 : string)
    : DbfRecord :=
  mkRecord deleted
    (<["NUMERO" := numero]> (<["NUMERO_1" := numero1]>
       (<["NUMERO_2" := numero2]> ∅))).

Definition table (records : list DbfRecord) : DbfTable :=
  mkTable fields records.

(** A world whose file holds the given records, before any call. *)
Definition world (records : list DbfRecord) : World File :=
  mkWorld (Some (table records)) [] [].

(** A world whose file cannot be opened. *)
Definition noFile : World File := mkWorld None [] [].

(** The scenario of the specification: one record that is not deleted,
    with the [NUMERO] "E3200" (padded, as a text field is) and the
    [NUMERO_1] 5, after a deleted record of the same type. *)
Definition scenario : list DbfRecord :=
  [record true "E3200" "77" "0"; record false "E3200     " "5" "0"].

(** Two records that are not deleted start with "E32". *)
Definition twoMatches : list DbfRecord :=
  [record true "E3299" "1" "1"; record false "E3200" "5" "0";
   record false "E3201" "9" "3"].

(** A counter at the largest [int64]. *)
Definition lastNumber : list DbfRecord :=
  [record false "E3200" "9223372036854775807" "0"].

(** A record whose numeric fields do not parse, before one whose fields
    do. *)
Definition malformed : list DbfRecord :=
  [record false "E3200" "abc" "1x"; record false "B03" "2" "7"].

(** A counter whose decimal text is one more than the largest [int64]. *)
Definition outOfRange : list DbfRecord :=
  [record false "E3200" "9223372036854775808" "0"].

(** A table with no field [NUMERO]. *)
Definition noNumero : DbfTable :=
  mkTable ["NUMERO_1"; "NUMERO_2"] [record false "E3200" "5" "0"].

End Ref.

(** ** Definitions used in the statements *)

(** The number a string of decimal digits denotes, read after [acc];
    [None] when a byte is not a digit. *)
Fixpoint digitsValue (s : string) (acc : Z) : option Z :=
  match s with
  | EmptyString => Some acc
  | String c s' =>
      match Strconv.digitVal c with
      | Some d => digitsValue s' (acc * 10 + d)
      | None => None
      end
  end.

(** What the specification calls a text parsable as an integer: the
    integer a numeric text denotes, an optional sign followed by one or
    more decimal digits whose value lies in [int64]. A text for which
    this is [None] is unparsable as an integer. *)
Definition integerText (s : string) : option Z :=
  match s with
  | EmptyString => None
  | String c s' =>
      let digits := if Ascii.eqb c "+" || Ascii.eqb c "-" then s' else s in
      match digits with
      | EmptyString => None
      | _ =>
          match digitsValue digits 0 with
          | None => None
          | Some v =>
              let n := if Ascii.eqb c "-" then - v else v in
              if (MinInt64 <=? n) && (n <=? MaxInt64) then Some n else None
          end
      end
  end.

(** [k] blanks, as in front of a number in a right-aligned field. *)
Fixpoint blanks (k : nat) : string :=
  match k with
  | O => EmptyString
  | S k' => String " " (blanks k')
  end.

(** A byte of a decimal number: a digit or the minus sign. *)
Definition plainByte (c : ascii) : bool :=
  let n := nat_of_ascii c in
  (n =? 45)%nat || ((48 <=? n)%nat && (n <=? 57)%nat).

(** [s] starts with a byte of a decimal number. *)
Definition startsPlain (s : string) : Prop :=
  exists c r, s = String c r /\ plainByte c = true.

(** [s] ends with a byte of a decimal number. *)
Definition endsPlain (s : string) : Prop :=
  exists c l, rev (list_ascii_of_string s) = c :: l /\ plainByte c = true.

(** The body of the earlier handler for the body of the present one: the
    earlier response carries the sequence alone. *)
Definition dropNumber (b : Body) : Body :=
  match b with
  | BodySequence sequence _ => BodySequenceV1 sequence
  | BodyText _ | BodyTipos _ | BodySequenceV1 _ => b
  end.

(** The earlier result for the present one. *)
Definition dropNumberResult (r : string * Z * option SequenceError)
    : string * option SequenceError :=
  (fst (fst r), snd r).

(** The body [{"type": type, "cta": cta}]. *)
Definition sequenceBody (type cta : string) : JSON :=
  JObject [("type", JString type); ("cta", JString cta)].

(** Requests and file systems used as examples. *)
Module Cases.

Definition key : string := "test-api-key".

(** A request for a sequence of the given type on the given channel. *)
Definition post (type cta : string) : Request :=
  mkRequest "POST" key "127.0.0.1:5000" (Some (sequenceBody type cta)).

(** A request whose body is [{"type": "E32", "cta": 5}]. *)
Definition numericCTA : Request :=
  mkRequest "POST" key "127.0.0.1:5000"
    (Some (JObject [("type", JString "E32"); ("cta", JNumber "5")])).

(** A request whose body is [{"TYPE": "E32", "Cta": "B", "note": 1}]. *)
Definition otherCase : Request :=
  mkRequest "POST" key "127.0.0.1:5000"
    (Some (JObject [("TYPE", JString "E32"); ("Cta", JString "B");
                    ("note", JNumber "1")])).

Definition getTipos : Request :=
  mkRequest "GET" key "127.0.0.1:5000" None.

(** A file system with the table at [C:/fac/FAC_PF_M.dbf], in lower
    case, and no index beside it. *)
Definition lowerCase : FileSystem :=
  mkFileSystem None
    (fun path => if String.eqb path "C:/fac/FAC_PF_M.dbf"
                 then StatOk else StatNotExist).

(** A file system with the table and its index. *)
Definition withIndex : FileSystem :=
  mkFileSystem None
    (fun path => if String.eqb path "C:/fac/FAC_PF_M.DBF" ||
                    String.eqb path "C:/fac/FAC_PF_M.CDX"
                 then StatOk else StatNotExist).

(** A service that is starting at the first three queries and running at
    the fourth. *)
Definition slowStart : ServiceManager :=
  mkServiceManager None None
    (fun k => if (k <? 3)%nat then inl StartPending else inl Running).

(** A service that never leaves the start. *)
Definition stuck : ServiceManager :=
  mkServiceManager None None (fun _ => inl StartPending).

(** The results of a run of the load test: two workers were given the
    same sequence, a third request failed. *)
Definition repeated : list Result :=
  [mkResult "E310000000001" 200 1500000 None 1;
   mkResult "E310000000001" 200 2500000 None 2;
   mkResult EmptyString 500 900000 None 1].

(** The results of a run in which every sequence is different. *)
Definition distinct : list Result :=
  [mkResult "E310000000001" 200 1500000 None 1;
   mkResult "E310000000002" 200 2500000 None 2;
   mkResult EmptyString 0 0 (Some "connection refused") 1].

(** Two types, each with both counters. *)
Definition twoTypes : list Ref.DbfRecord :=
  [Ref.record false "E3100" "10" "20"; Ref.record false "E3200" "5" "7"].

End Cases.

(** * Properties *)

(** ** [int64] arithmetic *)

Lemma wrap64_isInt64 z : isInt64 (wrap64 z).
Proof.
  unfold isInt64, wrap64, MinInt64, MaxInt64.
  pose proof (Z.mod_pos_bound (z + 2 ^ 63) (2 ^ 64)). lia.
Qed.

Lemma wrap64_small z : isInt64 z -> wrap64 z = z.
Proof.
  unfold isInt64, wrap64, MinInt64, MaxInt64. intros Hz.
  rewrite Z.mod_small; lia.
Qed.

Lemma add64_isInt64 a b : isInt64 (add64 a b).
Proof. apply wrap64_isInt64. Qed.

Lemma add64_succ old : MinInt64 <= old < MaxInt64 -> add64 old 1 = old + 1.
Proof.
  intros Hold. unfold add64. apply wrap64_small.
  unfold isInt64, MinInt64, MaxInt64 in *. lia.
Qed.

Example add64_wraps : add64 MaxInt64 1 = MinInt64.
Proof. reflexivity. Qed.

(** ** Strings *)

Lemma substring_all s : String.substring 0 (String.length s) s = s.
Proof. induction s as [|c s IH]; simpl; [reflexivity | now rewrite IH]. Qed.

Lemma sliceFrom_append a b : sliceFrom (String.length a) (a +:+ b) = b.
Proof.
  unfold sliceFrom. induction a as [|c a IH]; simpl.
  - rewrite Nat.sub_0_r. apply substring_all.
  - exact IH.
Qed.

Lemma sliceTo_append a b : sliceTo (String.length a) (a +:+ b) = a.
Proof.
  unfold sliceTo. induction a as [|c a IH]; simpl.
  - now destruct b.
  - now rewrite IH.
Qed.

Lemma HasPrefix_append a b : Strings.HasPrefix (a +:+ b) a = true.
Proof.
  unfold Strings.HasPrefix. induction a as [|c a IH]; simpl.
  - now destruct b.
  - destruct (ascii_dec c c); [exact IH | congruence].
Qed.

(** ** [strconv]: a number printed in decimal is read back *)

Lemma digitVal_digitChar d :
  0 <= d < 10 -> Strconv.digitVal (Strconv.digitChar d) = Some d.
Proof.
  intros Hd.
  assert (Hcases : d = 0 \/ d = 1 \/ d = 2 \/ d = 3 \/ d = 4 \/ d = 5 \/
                   d = 6 \/ d = 7 \/ d = 8 \/ d = 9) by lia.
  repeat (destruct Hcases as [-> | Hcases]; [reflexivity |]).
  now subst.
Qed.

Lemma formatBits_S fuel u acc :
  Strconv.formatBits (S fuel) u acc =
  if u <? 10 then String (Strconv.digitChar u) acc
  else Strconv.formatBits fuel (u / 10)
         (String (Strconv.digitChar (u mod 10)) acc).
Proof. reflexivity. Qed.

Lemma formatBits_keeps_nonempty fuel : forall u acc,
  acc <> EmptyString -> Strconv.formatBits fuel u acc <> EmptyString.
Proof.
  induction fuel as [|fuel IH]; intros u acc Hacc; [exact Hacc |].
  rewrite formatBits_S. destruct (u <? 10); [discriminate |].
  apply IH. discriminate.
Qed.

Lemma formatBits_nonempty fuel u acc :
  Strconv.formatBits (S fuel) u acc <> EmptyString.
Proof.
  rewrite formatBits_S. destruct (u <? 10); [discriminate |].
  apply formatBits_keeps_nonempty. discriminate.
Qed.

(** Reading the digits of [u] multiplies what was read before by a power
    of ten [p] and adds [u]. *)
Lemma digitsValue_formatBits fuel : forall u,
  0 <= u < 10 ^ Z.of_nat (S fuel) ->
  exists p, forall acc a,
    digitsValue (Strconv.formatBits (S fuel) u acc) a =
    digitsValue acc (a * p + u).
Proof.
  induction fuel as [|fuel IH]; intros u Hu.
  - exists 10. intros acc a. rewrite formatBits_S.
    change (10 ^ Z.of_nat 1) with 10 in Hu.
    destruct (Z.ltb_spec u 10); [| lia].
    simpl. now rewrite digitVal_digitChar by lia.
  - destruct (Z.ltb_spec u 10) as [Hlt | Hge].
    + exists 10. intros acc a. rewrite formatBits_S.
      destruct (Z.ltb_spec u 10); [| lia].
      simpl. now rewrite digitVal_digitChar by lia.
    + destruct (IH (u / 10)) as [p Hp].
      { split; [apply Z.div_pos; lia |].
        apply Z.div_lt_upper_bound; [lia |].
        rewrite Nat2Z.inj_succ, Z.pow_succ_r in Hu by lia. lia. }
      exists (p * 10). intros acc a. rewrite formatBits_S.
      destruct (Z.ltb_spec u 10); [lia |]. rewrite Hp.
      pose proof (Z.mod_pos_bound u 10 ltac:(lia)) as Hmod.
      cbn [digitsValue]. rewrite digitVal_digitChar by lia.
      f_equal. pose proof (Z.div_mod u 10 ltac:(lia)). lia.
Qed.

Lemma digitsValue_FormatUint u :
  0 <= u < 2 ^ 64 ->
  digitsValue (Strconv.FormatUint u) 0 = Some u.
Proof.
  intros Hu. unfold Strconv.FormatUint.
  destruct (digitsValue_formatBits 19 u) as [p Hp].
  { change (10 ^ Z.of_nat 20) with 100000000000000000000.
    change (2 ^ 64) with 18446744073709551616 in Hu. lia. }
  rewrite Hp. reflexivity.
Qed.

Lemma FormatUint_nonempty u : Strconv.FormatUint u <> EmptyString.
Proof. apply formatBits_nonempty. Qed.

(** ** [strconv]: the loop of [ParseUint] and the number the digits denote *)

Lemma digitVal_bound c d : Strconv.digitVal c = Some d -> 0 <= d < 10.
Proof.
  unfold Strconv.digitVal.
  destruct (Z.leb_spec 48 (Z.of_nat (nat_of_ascii c)));
    destruct (Z.leb_spec (Z.of_nat (nat_of_ascii c)) 57);
    cbn [andb]; intros [= <-]; lia.
Qed.

Lemma digitsValue_ge s : forall acc v,
  0 <= acc -> digitsValue s acc = Some v -> acc <= v.
Proof.
  induction s as [|c s IH]; intros acc v Hacc; cbn [digitsValue].
  - intros [= <-]. lia.
  - destruct (Strconv.digitVal c) as [d |] eqn:Hd; [| discriminate].
    intros Hv. pose proof (digitVal_bound _ _ Hd).
    apply IH in Hv; lia.
Qed.

(** The loop returns the number the digits denote when it fits a
    [uint64], and stops with a range error when it does not; on a string
    that is not all digits it stops with one of its two errors. *)
Lemma parseUintFrom_digitsValue s : forall n,
  0 <= n <= maxUint64 ->
  match digitsValue s n with
  | Some v =>
      Strconv.parseUintFrom s n =
      if v <=? maxUint64 then (v, None) else (maxUint64, Some Strconv.ErrRange)
  | None =>
      Strconv.parseUintFrom s n = (0, Some Strconv.ErrSyntax) \/
      Strconv.parseUintFrom s n = (maxUint64, Some Strconv.ErrRange)
  end.
Proof.
  induction s as [|c s IH]; intros n Hn;
    cbn [digitsValue Strconv.parseUintFrom].
  - destruct (Z.leb_spec n maxUint64); [reflexivity | lia].
  - destruct (Strconv.digitVal c) as [d |] eqn:Hd; [| now left].
    pose proof (digitVal_bound _ _ Hd) as Hdigit.
    unfold maxUint64, wrapU64 in *.
    change (2 ^ 64) with 18446744073709551616 in *.
    change ((18446744073709551616 - 1) / 10 + 1)
      with 1844674407370955162.
    destruct (Z.leb_spec 1844674407370955162 n) as [Hcut | Hcut].
    { destruct (digitsValue s (n * 10 + d)) as [v |] eqn:Hv; [| now right].
      apply digitsValue_ge in Hv; [| lia].
      destruct (Z.leb_spec v (18446744073709551616 - 1)); [lia | reflexivity]. }
    rewrite (Z.mod_small (n * 10)) by lia.
    destruct (Z.leb_spec (n * 10 + d) (18446744073709551616 - 1))
      as [Hfits | Hover].
    + rewrite (Z.mod_small (n * 10 + d)) by lia.
      destruct (Z.ltb_spec (n * 10 + d) (n * 10)); [lia |].
      destruct (Z.ltb_spec (18446744073709551616 - 1) (n * 10 + d)); [lia |].
      cbn [orb]. apply IH. lia.
    + assert (Hwrap : (n * 10 + d) mod 18446744073709551616
                      = n * 10 + d - 18446744073709551616).
      { symmetry. apply (Z.mod_unique_pos _ _ 1); lia. }
      rewrite Hwrap.
      destruct (Z.ltb_spec (n * 10 + d - 18446744073709551616) (n * 10));
        [| lia].
      cbn [orb].
      destruct (digitsValue s (n * 10 + d)) as [v |] eqn:Hv; [| now right].
      apply digitsValue_ge in Hv; [| lia].
      destruct (Z.leb_spec v (18446744073709551616 - 1)); [lia | reflexivity].
Qed.

Lemma ParseUint_digitsValue s un :
  s <> EmptyString -> digitsValue s 0 = Some un -> un <= maxUint64 ->
  Strconv.ParseUint s = (un, None).
Proof.
  intros Hs Hparse Hun. destruct s as [|c s']; [congruence |].
  unfold Strconv.ParseUint.
  pose proof (parseUintFrom_digitsValue (String c s') 0) as Hloop.
  rewrite Hparse in Hloop. rewrite Hloop by (unfold maxUint64; lia).
  destruct (Z.leb_spec un maxUint64); [reflexivity | lia].
Qed.

Lemma ParseInt_unsigned s un :
  s <> EmptyString -> digitsValue s 0 = Some un -> un < 2 ^ 63 ->
  Strconv.ParseInt s = (un, None).
Proof.
  intros Hs Hparse Hun. destruct s as [|c s'] eqn:Heq; [congruence |].
  assert (Hplus : Ascii.eqb c "+" = false).
  { destruct (Ascii.eqb_spec c "+") as [-> |]; [discriminate | reflexivity]. }
  assert (Hminus : Ascii.eqb c "-" = false).
  { destruct (Ascii.eqb_spec c "-") as [-> |]; [discriminate | reflexivity]. }
  unfold Strconv.ParseInt. rewrite Hplus, Hminus. cbn [orb negb andb].
  rewrite (ParseUint_digitsValue _ un Hs Hparse) by (unfold maxUint64; lia).
  destruct (Z.leb_spec (2 ^ 63) un); [lia | reflexivity].
Qed.

Lemma ParseInt_negative s un :
  s <> EmptyString -> digitsValue s 0 = Some un -> un <= 2 ^ 63 ->
  Strconv.ParseInt (String "-" s) = (- un, None).
Proof.
  intros Hs Hparse Hun. unfold Strconv.ParseInt.
  change (Ascii.eqb "-" "-") with true. change (Ascii.eqb "-" "+") with false.
  cbn [orb negb andb].
  rewrite (ParseUint_digitsValue _ un Hs Hparse) by (unfold maxUint64; lia).
  destruct (Z.ltb_spec (2 ^ 63) un); [lia | reflexivity].
Qed.

(** [ParseInt] returns the integer a text denotes, and fails exactly on
    the texts that denote none in [int64]. *)
Lemma ParseInt_integerText s :
  match integerText s with
  | Some n => Strconv.ParseInt s = (n, None)
  | None => snd (Strconv.ParseInt s) <> None
  end.
Proof.
  destruct s as [|c s']; [discriminate |].
  unfold integerText, Strconv.ParseInt.
  set (digits := if Ascii.eqb c "+" || Ascii.eqb c "-" then s' else String c s').
  destruct digits as [|c0 digits'] eqn:Hdigits; [discriminate |].
  unfold Strconv.ParseUint.
  pose proof (parseUintFrom_digitsValue (String c0 digits') 0
                ltac:(unfold maxUint64; lia)) as Hloop.
  destruct (digitsValue (String c0 digits') 0) as [v |] eqn:Hv.
  - pose proof (digitsValue_ge _ _ _ (Z.le_refl 0) Hv) as Hpos.
    rewrite Hloop. unfold maxUint64, MinInt64, MaxInt64 in *.
    destruct (Z.leb_spec v (2 ^ 64 - 1)) as [Hfits | Hover].
    + destruct (Ascii.eqb c "-"); cbn [negb andb].
      * destruct (Z.ltb_spec (2 ^ 63) v);
          destruct (Z.leb_spec (- 2 ^ 63) (- v));
          destruct (Z.leb_spec (- v) (2 ^ 63 - 1));
          cbn [andb snd]; try lia; try reflexivity; discriminate.
      * destruct (Z.leb_spec (2 ^ 63) v);
          destruct (Z.leb_spec (- 2 ^ 63) v);
          destruct (Z.leb_spec v (2 ^ 63 - 1));
          cbn [andb snd]; try lia; try reflexivity; discriminate.
    + destruct (Ascii.eqb c "-"); cbn [negb andb].
      * destruct (Z.leb_spec (- 2 ^ 63) (- v)); [lia |]. cbn. discriminate.
      * destruct (Z.leb_spec v (2 ^ 63 - 1)); [lia |].
        rewrite andb_false_r. cbn. discriminate.
  - destruct Hloop as [-> | ->]; [discriminate |].
    destruct (Ascii.eqb c "-"); cbn; discriminate.
Qed.

(** [parseInt] is the integer the trimmed text denotes, and 0 when it
    denotes none. *)
Lemma parseInt_integerText s :
  parseInt s = default 0 (integerText (Strings.TrimSpace s)).
Proof.
  unfold parseInt.
  pose proof (ParseInt_integerText (Strings.TrimSpace s)) as Hparse.
  destruct (integerText (Strings.TrimSpace s)) as [n |].
  - now rewrite Hparse.
  - destruct (Strconv.ParseInt (Strings.TrimSpace s)) as [val [e |]];
      [reflexivity | now elim Hparse].
Qed.

Lemma ParseInt_FormatInt n :
  isInt64 n -> Strconv.ParseInt (Strconv.FormatInt n) = (n, None).
Proof.
  unfold isInt64, MinInt64, MaxInt64. intros Hn. unfold Strconv.FormatInt.
  destruct (Z.ltb_spec n 0).
  - rewrite (ParseInt_negative _ (- n)).
    + now rewrite Z.opp_involutive.
    + apply FormatUint_nonempty.
    + apply digitsValue_FormatUint. lia.
    + lia.
  - apply ParseInt_unsigned.
    + apply FormatUint_nonempty.
    + apply digitsValue_FormatUint. lia.
    + lia.
Qed.

(** ** [fmt]: the padded number is read back *)

Lemma digitsValue_zeros k s :
  digitsValue (Fmt.zeros k +:+ s) 0 = digitsValue s 0.
Proof. induction k as [|k IH]; [reflexivity | exact IH]. Qed.

Lemma zeros_append_nonempty k s :
  s <> EmptyString -> Fmt.zeros k +:+ s <> EmptyString.
Proof. intros Hs. destruct k; [exact Hs | discriminate]. Qed.

Lemma ParseInt_pad010d n :
  isInt64 n -> Strconv.ParseInt (Fmt.pad010d n) = (n, None).
Proof.
  unfold isInt64, MinInt64, MaxInt64. intros Hn. unfold Fmt.pad010d.
  destruct (Z.ltb_spec n 0).
  - rewrite (ParseInt_negative _ (- n)).
    + now rewrite Z.opp_involutive.
    + apply zeros_append_nonempty, FormatUint_nonempty.
    + rewrite digitsValue_zeros, Z.abs_neq by lia.
      apply digitsValue_FormatUint. lia.
    + lia.
  - apply ParseInt_unsigned.
    + apply zeros_append_nonempty, FormatUint_nonempty.
    + rewrite digitsValue_zeros, Z.abs_eq by lia.
      apply digitsValue_FormatUint. lia.
    + lia.
Qed.

(** ** [fmt]: the width of the padded number *)

Lemma length_append a b :
  String.length (a +:+ b) = (String.length a + String.length b)%nat.
Proof. induction a as [|c a IH]; simpl; [reflexivity | now rewrite IH]. Qed.

Lemma length_zeros k : String.length (Fmt.zeros k) = k.
Proof. induction k as [|k IH]; simpl; [reflexivity | now rewrite IH]. Qed.

Lemma length_formatBits fuel : forall (k : nat) u acc,
  0 <= u < 10 ^ Z.of_nat k -> (1 <= k <= S fuel)%nat ->
  (String.length (Strconv.formatBits (S fuel) u acc)
   <= k + String.length acc)%nat.
Proof.
  induction fuel as [|fuel IH]; intros k u acc Hu Hk; rewrite formatBits_S.
  - assert (k = 1%nat) as -> by lia. change (10 ^ Z.of_nat 1) with 10 in Hu.
    destruct (Z.ltb_spec u 10); [simpl; lia | lia].
  - destruct (Z.ltb_spec u 10) as [Hlt | Hge]; [simpl; lia |].
    destruct k as [|[|k]]; [lia | change (10 ^ Z.of_nat 1) with 10 in Hu; lia |].
    pose proof (IH (S k) (u / 10)
                  (String (Strconv.digitChar (u mod 10)) acc)) as Hlen.
    cbn [String.length] in Hlen. etransitivity; [apply Hlen |]; try lia.
    split; [apply Z.div_pos; lia |].
    apply Z.div_lt_upper_bound; [lia |].
    rewrite (Nat2Z.inj_succ (S k)), Z.pow_succ_r in Hu by lia. lia.
Qed.

Lemma length_pad010d n :
  0 <= n < 10 ^ 10 -> String.length (Fmt.pad010d n) = 10%nat.
Proof.
  intros Hn. unfold Fmt.pad010d. destruct (Z.ltb_spec n 0); [lia |].
  rewrite Z.abs_eq by lia. rewrite length_append, length_zeros.
  pose proof (length_formatBits 19 10 n EmptyString Hn ltac:(lia)) as Hlen.
  cbn [String.length] in Hlen. unfold Strconv.FormatUint. lia.
Qed.

Example Sprintf_six : Fmt.Sprintf_s_010d "E32" 6 = "E320000000006".
Proof. reflexivity. Qed.

Example pad010d_negative : Fmt.pad010d (-42) = "-000000042".
Proof. reflexivity. Qed.

Example pad010d_wide : Fmt.pad010d MinInt64 = "-9223372036854775808".
Proof. reflexivity. Qed.

Example ParseInt_range :
  Strconv.ParseInt "9223372036854775808" = (MaxInt64, Some Strconv.ErrRange).
Proof. reflexivity. Qed.

Example ParseInt_range_negative :
  Strconv.ParseInt "-9223372036854775809" = (MinInt64, Some Strconv.ErrRange).
Proof. reflexivity. Qed.

(** The loop stops at the first error: digits that overflow before a
    byte that is no digit give a range error, not a syntax error. *)
Example ParseInt_overflow_first :
  Strconv.ParseInt "99999999999999999999x" = (MaxInt64, Some Strconv.ErrRange) /\
  Strconv.ParseInt "12x" = (0, Some Strconv.ErrSyntax) /\
  Strconv.ParseInt "+" = (0, Some Strconv.ErrSyntax).
Proof. repeat split. Qed.

Example TrimSpace_blanks : Strings.TrimSpace "  E3200   " = "E3200".
Proof. reflexivity. Qed.

Example TrimSpace_runes :
  Strings.TrimSpace (bytes [194; 160; 32; 65; 32; 66; 226; 128; 128; 10]%nat)
  = "A B".
Proof. reflexivity. Qed.

(** ** The channel *)

Lemma upperByte_A c : Strings.upperByte c = "A"%char -> c = "A"%char \/ c = "a"%char.
Proof.
  destruct c as [[] [] [] [] [] [] [] []]; vm_compute; intros Hc;
    first [discriminate Hc | now left | now right].
Qed.

Lemma upperByte_B c : Strings.upperByte c = "B"%char -> c = "B"%char \/ c = "b"%char.
Proof.
  destruct c as [[] [] [] [] [] [] [] []]; vm_compute; intros Hc;
    first [discriminate Hc | now left | now right].
Qed.

Lemma ToUpper_A cta : Strings.ToUpper cta = "A" -> cta = "A" \/ cta = "a".
Proof.
  destruct cta as [|c [|c' cta]]; simpl; intros Hc; try discriminate Hc.
  injection Hc as Hc. destruct (upperByte_A c Hc) as [-> | ->]; auto.
Qed.

Lemma ToUpper_B cta : Strings.ToUpper cta = "B" -> cta = "B" \/ cta = "b".
Proof.
  destruct cta as [|c [|c' cta]]; simpl; intros Hc; try discriminate Hc.
  injection Hc as Hc. destruct (upperByte_B c Hc) as [-> | ->]; auto.
Qed.

(** The channel is accepted exactly when it is [A] or [B] in either
    case. *)
Lemma channelField_Some cta f :
  channelField cta = Some f ->
  (f = "NUMERO_1" /\ (cta = "A" \/ cta = "a")) \/
  (f = "NUMERO_2" /\ (cta = "B" \/ cta = "b")).
Proof.
  unfold channelField.
  destruct (String.eqb_spec (Strings.ToUpper cta) "A") as [HA | _].
  - intros [= <-]. left. split; [reflexivity | now apply ToUpper_A].
  - destruct (String.eqb_spec (Strings.ToUpper cta) "B") as [HB | _].
    + intros [= <-]. right. split; [reflexivity | now apply ToUpper_B].
    + discriminate.
Qed.

Lemma channelField_None cta :
  cta <> "A" -> cta <> "a" -> cta <> "B" -> cta <> "b" ->
  channelField cta = None.
Proof.
  intros HA Ha HB Hb. destruct (channelField cta) as [f |] eqn:Hf; [| reflexivity].
  destruct (channelField_Some _ _ Hf) as [[_ [? | ?]] | [_ [? | ?]]]; congruence.
Qed.

Lemma channelField_not_NUMERO cta f : channelField cta = Some f -> f <> "NUMERO".
Proof.
  intros Hf. destruct (channelField_Some _ _ Hf) as [[-> _] | [-> _]]; discriminate.
Qed.

(** ** The loop of [GetSequence] *)

Section StoreFacts.

Context {File Table : Type} `{TableFile File Table}.

(** One turn of the loop, in the words of [recordMatches]. *)
Lemma scanRecords_S (t : Table) tipo f i r :
  scanRecords t tipo f i (S r) =
  if recordMatches t tipo i then incrementCounter t i f
  else scanRecords t tipo f (S i) r.
Proof.
  unfold recordMatches. cbn [scanRecords].
  destruct (RowIsDeleted t i); [reflexivity |].
  destruct (FieldValueByName t i "NUMERO") as [numeroStr [e |]]; [reflexivity |].
  cbn [negb andb]. now destruct (Strings.HasPrefix _ tipo).
Qed.

(** The loop stops at the first matching record from [i] on, or finds
    none among the [r] records it visits. *)
Lemma scanRecords_spec (t : Table) tipo f r : forall i,
  (exists j, (i <= j < i + r)%nat /\
     recordMatches t tipo j = true /\
     (forall k, (i <= k < j)%nat -> recordMatches t tipo k = false) /\
     scanRecords t tipo f i r = incrementCounter t j f) \/
  ((forall k, (i <= k < i + r)%nat -> recordMatches t tipo k = false) /\
   scanRecords t tipo f i r = NotFound).
Proof.
  induction r as [|r IH]; intros i.
  - right. split; [intros k Hk; lia | reflexivity].
  - rewrite scanRecords_S. destruct (recordMatches t tipo i) eqn:Hi.
    + left. exists i. split; [lia |]. split; [exact Hi |].
      split; [| reflexivity]. intros k Hk. lia.
    + destruct (IH (S i)) as [(j & Hj & Hm & Hbefore & Hscan) | [Hnone Hscan]].
      * left. exists j. split; [lia |]. split; [exact Hm |].
        split; [| exact Hscan].
        intros k Hk. destruct (Nat.eq_dec k i) as [-> |]; [exact Hi |].
        apply Hbefore. lia.
      * right. split; [| exact Hscan].
        intros k Hk. destruct (Nat.eq_dec k i) as [-> |]; [exact Hi |].
        apply Hnone. lia.
Qed.

Lemma firstMatch_unique (t : Table) tipo i j :
  firstMatch t tipo i -> firstMatch t tipo j -> i = j.
Proof.
  intros (_ & Hi & Hbi) (_ & Hj & Hbj).
  destruct (Nat.lt_trichotomy i j) as [Hlt | [Heq | Hgt]]; [| exact Heq |].
  - rewrite (Hbj i Hlt) in Hi. discriminate.
  - rewrite (Hbi j Hgt) in Hj. discriminate.
Qed.

Lemma scanRecords_firstMatch (t : Table) tipo f i :
  firstMatch t tipo i ->
  scanRecords t tipo f 0 (NumberOfRecords t) = incrementCounter t i f.
Proof.
  intros (Hi & Hm & Hbefore).
  destruct (scanRecords_spec t tipo f (NumberOfRecords t) 0)
    as [(j & Hj & Hmj & Hbj & Hscan) | [Hnone _]].
  - assert (i = j) as ->; [| exact Hscan].
    apply (firstMatch_unique t tipo); [split; [| split]; assumption |].
    split; [lia |]. split; [exact Hmj |]. intros k Hk. apply Hbj. lia.
  - rewrite Hnone in Hm by lia. discriminate.
Qed.

Lemma scanRecords_no_match (t : Table) tipo f :
  (forall i, (i < NumberOfRecords t)%nat -> recordMatches t tipo i = false) ->
  scanRecords t tipo f 0 (NumberOfRecords t) = NotFound.
Proof.
  intros Hnone.
  destruct (scanRecords_spec t tipo f (NumberOfRecords t) 0)
    as [(j & Hj & Hmj & _) | [_ Hscan]]; [| exact Hscan].
  rewrite Hnone in Hmj by lia. discriminate.
Qed.

Lemma incrementCounter_Found (t : Table) i f j n t' :
  incrementCounter t i f = Found j n t' ->
  j = i /\ n = add64 (fst (Int64FieldValueByName t i f)) 1 /\
  SetFieldValueByName t i f (Strconv.FormatInt n) = (t', None).
Proof.
  unfold incrementCounter.
  destruct (SetFieldValueByName t i f _) as [t1 [e |]] eqn:Hset; [discriminate |].
  intros [= <- <- <-]. auto.
Qed.

Lemma incrementCounter_not_NotFound (t : Table) i f :
  incrementCounter t i f <> NotFound.
Proof.
  unfold incrementCounter.
  now destruct (SetFieldValueByName t i f _) as [t1 [e |]].
Qed.

Lemma scanRecords_Found (t : Table) tipo f j n t' :
  scanRecords t tipo f 0 (NumberOfRecords t) = Found j n t' ->
  firstMatch t tipo j /\
  n = add64 (fst (Int64FieldValueByName t j f)) 1 /\
  SetFieldValueByName t j f (Strconv.FormatInt n) = (t', None).
Proof.
  intros Hscan.
  destruct (scanRecords_spec t tipo f (NumberOfRecords t) 0)
    as [(i & Hi & Hm & Hbefore & Hscan') | [_ Hscan']];
    rewrite Hscan' in Hscan; [| discriminate].
  destruct (incrementCounter_Found _ _ _ _ _ _ Hscan) as (-> & Hn & Hset).
  split; [| split; assumption].
  split; [lia | split; [exact Hm |]]. intros k Hk. apply Hbefore. lia.
Qed.

(** A call that succeeds went through every step of [GetSequence]. *)
Lemma GetSequence_success tipo cta (w w' : World File) sequence n :
  GetSequence tipo cta w = ((sequence, n, None), w') ->
  exists t f i t',
    NewFromFile (disk w) = inl t /\
    channelField cta = Some f /\
    firstMatch t tipo i /\
    n = add64 (fst (Int64FieldValueByName t i f)) 1 /\
    SetFieldValueByName t i f (Strconv.FormatInt n) = (t', None) /\
    SaveToFile t' (disk w) = (disk w', None) /\
    sequence = Fmt.Sprintf_s_010d tipo n /\
    fileOps w' = (fileOps w ++ [OpOpen; OpSave])%list /\
    sequenceLog w' =
      (sequenceLog w ++ ["Generated sequence: " +:+ sequence])%list.
Proof.
  unfold GetSequence.
  destruct (NewFromFile (disk w)) as [t | e]; [| discriminate].
  destruct (channelField cta) as [f |]; [| discriminate].
  destruct (scanRecords t tipo f 0 (NumberOfRecords t))
    as [i n' t' | e |] eqn:Hscan; [| discriminate | discriminate].
  destruct (SaveToFile t' (disk w)) as [d' [e |]] eqn:Hsave; [discriminate |].
  intros [= <- <- <-].
  destruct (scanRecords_Found _ _ _ _ _ _ Hscan) as (Hfirst & Hn & Hset).
  exists t, f, i, t'. cbn [disk fileOps sequenceLog].
  rewrite <- app_assoc. auto 10.
Qed.

End StoreFacts.

(** The steps of a successful call, named. *)
Ltac successful_call Hcall :=
  let t := fresh "t" in
  let t' := fresh "t'" in
  let f := fresh "f" in
  let i := fresh "i" in
  destruct (GetSequence_success _ _ _ _ _ _ Hcall)
    as (t & f & i & t' & ?Hopen & ?Hf & ?Hfirst & ?Hn & ?Hset & ?Hsave &
        ?Hseq & ?Hops & ?Hlog);
  exists t, t', f, i.

(** ** The reference table keeps the laws *)

Module RefFacts.

Import Ref.

Lemma setFieldValueByName_ok t i f v t' :
  setFieldValueByName t i f v = (t', None) ->
  hasField t f = true /\
  t' = mkTable (tblFields t) (alter (setRecordValue f v) i (tblRecords t)).
Proof.
  unfold setFieldValueByName. destruct (hasField t f); [| discriminate].
  intros [= <-]. auto.
Qed.

Lemma fieldText_set_same t i f v :
  (i < length (tblRecords t))%nat ->
  fieldText (mkTable (tblFields t)
               (alter (setRecordValue f v) i (tblRecords t))) i f = v.
Proof.
  intros Hi. unfold fieldText. cbn [tblRecords].
  rewrite list_lookup_alter_eq.
  destruct (lookup_lt_is_Some_2 _ _ Hi) as [r Hr]. rewrite Hr. simpl.
  now rewrite lookup_insert_eq.
Qed.

Lemma fieldText_set_other t i f v j g :
  j <> i \/ g <> f ->
  fieldText (mkTable (tblFields t)
               (alter (setRecordValue f v) i (tblRecords t))) j g
  = fieldText t j g.
Proof.
  intros Hother. unfold fieldText. cbn [tblRecords].
  destruct (Nat.eq_dec i j) as [<- | Hij].
  - rewrite list_lookup_alter_eq.
    destruct (tblRecords t !! i) as [r |]; [| reflexivity]. simpl.
    rewrite lookup_insert_ne; [reflexivity |]. destruct Hother; congruence.
  - now rewrite list_lookup_alter_ne.
Qed.

Lemma fieldValueByName_set_other t i f v t' j g :
  setFieldValueByName t i f v = (t', None) ->
  j <> i \/ g <> f ->
  fieldValueByName t' j g = fieldValueByName t j g.
Proof.
  intros Hset Hother. destruct (setFieldValueByName_ok _ _ _ _ _ Hset) as [_ ->].
  unfold fieldValueByName, hasField. cbn [tblFields].
  now rewrite fieldText_set_other.
Qed.

(** The reference table reads a counter as [strconv.ParseInt] reads its
    text, the value next to an error included. *)
Lemma int64FieldValueByName_ParseInt t i f :
  hasField t f = true ->
  fst (int64FieldValueByName t i f) = fst (Strconv.ParseInt (fieldText t i f)) /\
  (snd (int64FieldValueByName t i f) = None <->
   snd (Strconv.ParseInt (fieldText t i f)) = None).
Proof.
  intros Hf. unfold int64FieldValueByName, fieldValueByName. rewrite Hf.
  cbn [fst]. destruct (Strconv.ParseInt (fieldText t i f)) as [n [e |]]; cbn.
  - split; [reflexivity |]. split; discriminate.
  - split; [reflexivity |]. split; reflexivity.
Qed.

#[global] Instance tableLaws : TableLaws (fun _ => True).
Proof.
  split.
  - intros t i f v t' Hset.
    destruct (setFieldValueByName_ok _ _ _ _ _ Hset) as [_ ->].
    cbn. apply length_alter.
  - intros t i f v t' j Hset.
    destruct (setFieldValueByName_ok _ _ _ _ _ Hset) as [_ ->].
    cbn. destruct (Nat.eq_dec i j) as [<- | Hij].
    + rewrite list_lookup_alter_eq. now destruct (tblRecords t !! i).
    + now rewrite list_lookup_alter_ne.
  - intros t i f v t' j g Hset Hother.
    now apply (fieldValueByName_set_other t i f v).
  - intros t i f v t' j g Hset Hother. cbn. unfold int64FieldValueByName.
    now rewrite (fieldValueByName_set_other t i f v t' j g).
  - intros t i f n t' Hset Hi Hn _.
    destruct (setFieldValueByName_ok _ _ _ _ _ Hset) as [Hf ->].
    cbn in Hi |- *. unfold int64FieldValueByName, fieldValueByName, hasField in *.
    cbn [tblFields]. rewrite Hf. cbn [fst].
    rewrite fieldText_set_same by exact Hi.
    now rewrite ParseInt_FormatInt.
  - intros t i f v. cbn.
    unfold int64FieldValueByName, fieldValueByName, setFieldValueByName.
    destruct (hasField t f); [reflexivity | discriminate].
  - intros t d d' [= <-]. reflexivity.
Qed.

End RefFacts.

(** ** The claims that hold for every table capability *)

Section StoreClaims.

Context {File Table : Type} `{TableFile File Table}.

Lemma listRecords_spec (t : Table) r : forall i tipos,
  listRecords t i r tipos =
  (tipos ++ List.map (decodeRecord t)
     (List.filter (fun i => negb (RowIsDeleted t i)) (List.seq i r)))%list.
Proof.
  induction r as [|r IH]; intros i tipos; cbn [listRecords List.seq List.filter].
  - now rewrite app_nil_r.
  - destruct (RowIsDeleted t i); rewrite IH; cbn [negb List.map].
    + reflexivity.
    + now rewrite <- app_assoc.
Qed.

(** C2, as amended: for every channel that is not [A] or [B] in either
    case, [GetSequence] opens the table file and nothing more: the file and
    the log are as before, no save is performed, and the error is the
    invalid-channel error when the file could be opened, the error of the
    open otherwise. *)
Theorem C2_invalid_channel tipo cta (w : World File) :
  cta <> "A" -> cta <> "a" -> cta <> "B" -> cta <> "b" ->
  GetSequence tipo cta w =
  ((EmptyString, 0,
    Some match NewFromFile (disk w) with
         | inl _ => ErrInvalidCTA cta
         | inr err => ErrOpen err
         end),
   mkWorld (disk w) (fileOps w ++ [OpOpen]) (sequenceLog w)).
Proof.
  intros HA Ha HB Hb. unfold GetSequence.
  destruct (NewFromFile (disk w)) as [t | err]; [| reflexivity].
  now rewrite (channelField_None cta HA Ha HB Hb).
Qed.

(** C3: when the file opens, the channel is [A] or [B], and no record
    that is not deleted has a [NUMERO] starting with [tipo], [GetSequence]
    fails with the not-found error for [tipo]; the file is as before the
    call, and the only operation on it was the open. *)
Theorem C3_unknown_type tipo cta f (w : World File) (t : Table) :
  NewFromFile (disk w) = inl t ->
  channelField cta = Some f ->
  (forall i numeroStr,
     (i < NumberOfRecords t)%nat ->
     RowIsDeleted t i = false ->
     FieldValueByName t i "NUMERO" = (numeroStr, None) ->
     Strings.HasPrefix (Strings.TrimSpace numeroStr) tipo = false) ->
  GetSequence tipo cta w =
  ((EmptyString, 0, Some (ErrNotFound tipo)),
   mkWorld (disk w) (fileOps w ++ [OpOpen]) (sequenceLog w)).
Proof.
  intros Hopen Hf Hnone. unfold GetSequence. rewrite Hopen, Hf.
  rewrite scanRecords_no_match; [reflexivity |].
  intros i Hi. unfold recordMatches.
  destruct (RowIsDeleted t i) eqn:Hdel; [reflexivity |].
  destruct (FieldValueByName t i "NUMERO") as [numeroStr [e |]] eqn:Hnum;
    [reflexivity |].
  cbn [negb andb]. now apply (Hnone i).
Qed.

(** The sequence of a successful call, for a [tipo] of any length: [tipo]
    followed by the number padded with zeros to 10 places; what follows
    the [len(tipo)] first bytes reads back as the number returned. *)
Lemma GetSequence_format tipo cta (w w' : World File) sequence n :
  GetSequence tipo cta w = ((sequence, n, None), w') ->
  sequence = tipo +:+ Fmt.pad010d n /\
  Strconv.ParseInt (sliceFrom (String.length tipo) sequence) = (n, None) /\
  Strings.HasPrefix sequence tipo = true /\
  sliceTo (String.length tipo) sequence = tipo.
Proof.
  intros Hcall.
  destruct (GetSequence_success _ _ _ _ _ _ Hcall)
    as (t & f & i & t' & _ & _ & _ & Hn & _ & _ & Hseq & _).
  unfold Fmt.Sprintf_s_010d in Hseq. subst sequence.
  split; [reflexivity |]. split; [| split].
  - rewrite sliceFrom_append. apply ParseInt_pad010d.
    rewrite Hn. apply add64_isInt64.
  - apply HasPrefix_append.
  - apply sliceTo_append.
Qed.

(** C4: for a type code, which has 3 bytes, the sequence of a successful
    call is the type code followed by the number padded with zeros to 10
    places (10 bytes when the number has at most 10 digits and is not
    negative); what follows its first 3 bytes reads back as the number
    returned; and its first 3 bytes are the type code. *)
Theorem C4_format_round_trip tipo cta (w w' : World File) sequence n :
  String.length tipo = 3%nat ->
  GetSequence tipo cta w = ((sequence, n, None), w') ->
  sequence = tipo +:+ Fmt.pad010d n /\
  (0 <= n < 10 ^ 10 -> String.length (Fmt.pad010d n) = 10%nat) /\
  Strconv.ParseInt (sliceFrom 3 sequence) = (n, None) /\
  sliceTo 3 sequence = tipo.
Proof.
  intros Hlen Hcall.
  destruct (GetSequence_format _ _ _ _ _ _ Hcall)
    as (Hseq & Hparse & _ & Hfirst).
  rewrite Hlen in Hparse, Hfirst.
  split; [exact Hseq |]. split; [apply length_pad010d | auto].
Qed.


(** C10: a record that is not deleted and whose [NUMERO] cannot be read
    is passed over: the loop goes on with the next record, the record is
    never the one selected, and a later matching record is still found. *)
Theorem C10_unreadable_skipped (t : Table) tipo f i r numeroStr e :
  RowIsDeleted t i = false ->
  FieldValueByName t i "NUMERO" = (numeroStr, Some e) ->
  scanRecords t tipo f i (S r) = scanRecords t tipo f (S i) r /\
  (forall j n t',
     scanRecords t tipo f 0 (NumberOfRecords t) = Found j n t' -> j <> i) /\
  (forall j, firstMatch t tipo j ->
     scanRecords t tipo f 0 (NumberOfRecords t) = incrementCounter t j f).
Proof.
  intros Hdel Hread.
  assert (Hno : recordMatches t tipo i = false).
  { unfold recordMatches. rewrite Hread. apply andb_false_r. }
  split; [| split].
  - now rewrite scanRecords_S, Hno.
  - intros j n t' Hscan ->.
    destruct (scanRecords_Found _ _ _ _ _ _ Hscan) as ((_ & Hm & _) & _).
    congruence.
  - intros j. apply scanRecords_firstMatch.
Qed.

End StoreClaims.

(** ** The claims that rely on the laws of the capability *)

Section LawfulStore.

Context {File Table : Type} `{TableFile File Table}.
Context (fits : Z -> Prop) `{!TableLaws fits}.

Lemma recordMatches_set (t t' : Table) i f v tipo j :
  SetFieldValueByName t i f v = (t', None) -> f <> "NUMERO" ->
  recordMatches t' tipo j = recordMatches t tipo j.
Proof.
  intros Hset Hf. unfold recordMatches.
  rewrite (set_RowIsDeleted _ _ _ _ _ j Hset).
  rewrite (set_FieldValue_other _ _ _ _ _ j "NUMERO" Hset); [reflexivity |].
  right. congruence.
Qed.

Lemma firstMatch_set (t t' : Table) i f v tipo j :
  SetFieldValueByName t i f v = (t', None) -> f <> "NUMERO" ->
  firstMatch t tipo j -> firstMatch t' tipo j.
Proof.
  intros Hset Hf (Hj & Hm & Hbefore). split; [| split].
  - now rewrite (set_NumberOfRecords _ _ _ _ _ Hset).
  - now rewrite (recordMatches_set _ _ _ _ _ _ _ Hset Hf).
  - intros k Hk. rewrite (recordMatches_set _ _ _ _ _ _ _ Hset Hf). now apply Hbefore.
Qed.

(** A call on a table whose first matching record has a counter [old]
    below [MaxInt64], when the save succeeds: the call returns [old + 1],
    and the table then on disk has the same first match, with the counter
    [old + 1]. *)
Lemma GetSequence_next tipo cta f (w : World File) (t : Table) i old :
  (forall t' d, snd (SaveToFile t' d) = None) ->
  NewFromFile (disk w) = inl t ->
  channelField cta = Some f ->
  firstMatch t tipo i ->
  Int64FieldValueByName t i f = (old, None) ->
  MinInt64 <= old < MaxInt64 -> fits (old + 1) ->
  exists w' t',
    GetSequence tipo cta w =
      ((Fmt.Sprintf_s_010d tipo (old + 1), old + 1, None), w') /\
    NewFromFile (disk w') = inl t' /\
    firstMatch t' tipo i /\
    Int64FieldValueByName t' i f = (old + 1, None).
Proof.
  intros Hsaves Hopen Hf Hfirst Hold Hrange Hfits.
  pose proof (set_readable t i f (Strconv.FormatInt (old + 1))) as Hset.
  rewrite Hold in Hset. specialize (Hset eq_refl).
  destruct (SetFieldValueByName t i f (Strconv.FormatInt (old + 1)))
    as [t' e] eqn:Hset'. cbn [snd] in Hset. subst e.
  pose proof (Hsaves t' (disk w)) as Hsave.
  destruct (SaveToFile t' (disk w)) as [d' e] eqn:Hsave'.
  cbn [snd] in Hsave. subst e.
  eexists. exists t'. split; [| split; [| split]].
  - unfold GetSequence. rewrite Hopen, Hf.
    rewrite (scanRecords_firstMatch t tipo f i Hfirst).
    unfold incrementCounter. rewrite Hold. cbn [fst].
    rewrite (add64_succ old Hrange), Hset', Hsave'. reflexivity.
  - cbn [disk]. exact (save_NewFromFile _ _ _ Hsave').
  - exact (firstMatch_set _ _ _ _ _ _ _ Hset' (channelField_not_NUMERO _ _ Hf) Hfirst).
  - apply (set_Int64FieldValue_same t i f (old + 1) t' Hset');
      [apply Hfirst | | exact Hfits].
    unfold isInt64, MinInt64, MaxInt64 in *. lia.
Qed.

(** C1: from a table whose only record that is not deleted has the
    [NUMERO] "E3200" and the [NUMERO_1] 5, [GetSequence("E32", "A")]
    returns ("E320000000006", 6), and again called on the state it leaves,
    ("E320000000007", 7). The saves are taken to succeed, and the counter
    field to hold 6 and 7. *)
Theorem C1_concrete_scenario (w : World File) (t : Table) i numeroStr :
  fits 6 -> fits 7 ->
  (forall t' d, snd (SaveToFile t' d) = None) ->
  NewFromFile (disk w) = inl t ->
  (i < NumberOfRecords t)%nat ->
  RowIsDeleted t i = false ->
  (forall j, (j < NumberOfRecords t)%nat -> j <> i -> RowIsDeleted t j = true) ->
  FieldValueByName t i "NUMERO" = (numeroStr, None) ->
  Strings.TrimSpace numeroStr = "E3200" ->
  Int64FieldValueByName t i "NUMERO_1" = (5, None) ->
  fst (GetSequence "E32" "A" w) = ("E320000000006", 6, None) /\
  fst (GetSequence "E32" "A" (snd (GetSequence "E32" "A" w)))
  = ("E320000000007", 7, None).
Proof.
  intros Hfits6 Hfits7 Hsaves Hopen Hi Hlive Hothers Hnumero Htrim Hcounter.
  assert (Hfirst : firstMatch t "E32" i).
  { split; [exact Hi | split].
    - unfold recordMatches. rewrite Hlive, Hnumero, Htrim. reflexivity.
    - intros j Hj. unfold recordMatches.
      rewrite Hothers by lia. reflexivity. }
  destruct (GetSequence_next "E32" "A" "NUMERO_1" w t i 5)
    as (w1 & t1 & Hcall1 & Hopen1 & Hfirst1 & Hcounter1); auto.
  { unfold MinInt64, MaxInt64. lia. }
  destruct (GetSequence_next "E32" "A" "NUMERO_1" w1 t1 i 6)
    as (w2 & t2 & Hcall2 & _); auto.
  { unfold MinInt64, MaxInt64. lia. }
  rewrite Hcall1. cbn [fst snd]. rewrite Hcall2. split; reflexivity.
Qed.

(** C5: the loop of [GetSequence] goes through the records in file
    order and stops at the first one that is not deleted and whose
    trimmed [NUMERO] starts with [tipo]: its outcome is the increment of
    that record, whatever records match after it. A call that succeeds
    has incremented the counter of that record, and the same record is
    the first match in the table the call leaves on disk, so that the
    next call selects it again. *)
Theorem C5_first_match_wins :
  (forall (t : Table) tipo f i,
     firstMatch t tipo i ->
     scanRecords t tipo f 0 (NumberOfRecords t) = incrementCounter t i f) /\
  (forall tipo cta (w w' : World File) sequence n,
     GetSequence tipo cta w = ((sequence, n, None), w') ->
     exists t t' f i,
       NewFromFile (disk w) = inl t /\
       channelField cta = Some f /\
       firstMatch t tipo i /\
       incrementCounter t i f = Found i n t' /\
       NewFromFile (disk w') = inl t' /\
       firstMatch t' tipo i).
Proof.
  split; [intros t tipo f i; apply scanRecords_firstMatch |].
  intros tipo cta w w' sequence n Hcall. successful_call Hcall.
  split; [exact Hopen |]. split; [exact Hf |].
  split; [exact Hfirst |]. split; [| split].
  - unfold incrementCounter. rewrite <- Hn, Hset. reflexivity.
  - exact (save_NewFromFile _ _ _ Hsave).
  - exact (firstMatch_set _ _ _ _ _ _ _ Hset (channelField_not_NUMERO _ _ Hf) Hfirst).
Qed.

(** C6: a call that succeeds wrote one field of one record, [NUMERO_1]
    for the channel [A] and [NUMERO_2] for the channel [B], of the first
    matching record. In the table it saved, the number of records, the
    deletion flags, and every other field of every record, the other
    counter of that record among them, are as in the table it opened. *)
Theorem C6_only_the_counter_changes tipo cta (w w' : World File) sequence n :
  GetSequence tipo cta w = ((sequence, n, None), w') ->
  exists t t' f i,
    NewFromFile (disk w) = inl t /\
    NewFromFile (disk w') = inl t' /\
    firstMatch t tipo i /\
    ((f = "NUMERO_1" /\ (cta = "A" \/ cta = "a")) \/
     (f = "NUMERO_2" /\ (cta = "B" \/ cta = "b"))) /\
    NumberOfRecords t' = NumberOfRecords t /\
    (forall j, RowIsDeleted t' j = RowIsDeleted t j) /\
    (forall j g, j <> i \/ g <> f ->
       FieldValueByName t' j g = FieldValueByName t j g /\
       Int64FieldValueByName t' j g = Int64FieldValueByName t j g).
Proof.
  intros Hcall. successful_call Hcall. split; [exact Hopen |].
  split; [exact (save_NewFromFile _ _ _ Hsave) |].
  split; [exact Hfirst |].
  split; [exact (channelField_Some _ _ Hf) |].
  split; [exact (set_NumberOfRecords _ _ _ _ _ Hset) |].
  split; [intros j; exact (set_RowIsDeleted _ _ _ _ _ j Hset) |].
  intros j g Hother. split.
  - exact (set_FieldValue_other _ _ _ _ _ j g Hset Hother).
  - exact (set_Int64FieldValue_other _ _ _ _ _ j g Hset Hother).
Qed.

(** C7, as amended: a call that succeeds read the counter [old] of the
    first matching record; when [0 <= old < MaxInt64] the number it
    returns is [old + 1], and, the field being wide enough for it, the
    counter in the table it saved is [old + 1]. *)
Theorem C7_counter_increases_by_one tipo cta (w w' : World File) sequence n :
  GetSequence tipo cta w = ((sequence, n, None), w') ->
  exists t t' f i,
    NewFromFile (disk w) = inl t /\
    NewFromFile (disk w') = inl t' /\
    channelField cta = Some f /\
    firstMatch t tipo i /\
    let old := fst (Int64FieldValueByName t i f) in
    (0 <= old < MaxInt64 ->
     n = old + 1 /\ old < n /\
     (fits n -> Int64FieldValueByName t' i f = (old + 1, None))).
Proof.
  intros Hcall. successful_call Hcall. split; [exact Hopen |].
  split; [exact (save_NewFromFile _ _ _ Hsave) |].
  split; [exact Hf |]. split; [exact Hfirst |].
  intros old Hold. subst old.
  rewrite add64_succ in Hn by (unfold MinInt64, MaxInt64 in *; lia).
  split; [exact Hn |]. split; [lia |]. intros Hfits. rewrite <- Hn.
  apply (set_Int64FieldValue_same t i f n t' Hset); [apply Hfirst | | exact Hfits].
  rewrite Hn. unfold isInt64, MinInt64, MaxInt64 in *. lia.
Qed.

End LawfulStore.

(** ** Calls in turn

    What the mutex of the [Manager] leaves of concurrent calls is calls in
    turn. From a counter [old], [count] calls return [old + 1] to
    [old + count], in this order. *)

Section CallsInTurn.

Context {File Table : Type} `{TableFile File Table}.
Context (fits : Z -> Prop) `{!TableLaws fits}.

(** X5: [count] calls in turn on a type and channel whose counter is
    [old] return [old + 1], ..., [old + count] in this order, when the
    saves succeed, the counter field holds these numbers and none of them
    passes [MaxInt64]. *)
Lemma callsInTurn_numbers tipo cta f i count : forall (w : World File) (t : Table) old,
  (forall t' d, snd (SaveToFile t' d) = None) ->
  (forall n, old < n <= old + Z.of_nat count -> fits n) ->
  NewFromFile (disk w) = inl t ->
  channelField cta = Some f ->
  firstMatch t tipo i ->
  Int64FieldValueByName t i f = (old, None) ->
  MinInt64 <= old -> old + Z.of_nat count <= MaxInt64 ->
  fst (callsInTurn count tipo cta w) = numbersFrom old count.
Proof.
  induction count as [|count IH];
    intros w t old Hsaves Hfits Hopen Hf Hfirst Hold Hmin Hmax;
    [reflexivity |].
  destruct (GetSequence_next fits tipo cta f w t i old)
    as (w1 & t1 & Hcall & Hopen1 & Hfirst1 & Hold1); auto; try lia.
  { apply Hfits. lia. }
  cbn [callsInTurn numbersFrom]. rewrite Hcall.
  specialize (IH w1 t1 (old + 1) Hsaves).
  destruct (callsInTurn count tipo cta w1) as [numbers w2]. cbn [fst snd] in *.
  f_equal. apply IH; auto; try lia. intros n Hn. apply Hfits. lia.
Qed.

End CallsInTurn.

(** ** The claims on the reference table *)

(** C1 on the scenario of the specification. *)
Lemma C1_scenario_on_reference_table :
  fst (GetSequence "E32" "A" (Ref.world Ref.scenario))
  = ("E320000000006", 6, None) /\
  fst (GetSequence "E32" "A"
         (snd (GetSequence "E32" "A" (Ref.world Ref.scenario))))
  = ("E320000000007", 7, None).
Proof.
  apply (C1_concrete_scenario (fun _ => True) (Ref.world Ref.scenario)
           (Ref.table Ref.scenario) 1%nat "E3200     ");
    try exact I; try reflexivity.
  - cbn. lia.
  - intros j Hj Hne. cbn in Hj. destruct j as [|[|j]]; [reflexivity | lia | lia].
Defined.

(** C2 on the channel [Q]: the file is opened, and nothing else. *)
Lemma C2_channel_Q_on_reference_table :
  GetSequence "E32" "Q" (Ref.world Ref.scenario) =
  ((EmptyString, 0, Some (ErrInvalidCTA "Q")),
   mkWorld (Some (Ref.table Ref.scenario)) [OpOpen] []).
Proof.
  refine (C2_invalid_channel "E32" "Q" (Ref.world Ref.scenario) _ _ _ _);
    discriminate.
Defined.

(** The claim C2 fails: the file is opened before the channel is looked
    at, so that a file that cannot be opened gives the error of the open
    for the channel [Q], and a file that can has been opened when the
    invalid-channel error is returned. *)
Lemma C2_file_is_opened_first :
  GetSequence "E32" "Q" Ref.noFile =
  ((EmptyString, 0, Some (ErrOpen "open: the file cannot be read")),
   mkWorld None [OpOpen] []) /\
  fst (GetSequence "E32" "Q" Ref.noFile)
  <> (EmptyString, 0, Some (ErrInvalidCTA "Q")) /\
  fileOps (snd (GetSequence "E32" "Q" (Ref.world Ref.scenario))) = [OpOpen] /\
  fileOps (snd (GetSequence "E32" "Q" (Ref.world Ref.scenario)))
  <> fileOps (Ref.world Ref.scenario).
Proof.
  split; [reflexivity |]. split; [discriminate |].
  split; [reflexivity | discriminate].
Qed.

(** C3 on the type [ZZZ]. *)
Lemma C3_ZZZ_on_reference_table :
  GetSequence "ZZZ" "A" (Ref.world Ref.scenario) =
  ((EmptyString, 0, Some (ErrNotFound "ZZZ")),
   mkWorld (Some (Ref.table Ref.scenario)) [OpOpen] []).
Proof.
  apply (C3_unknown_type "ZZZ" "A" "NUMERO_1" (Ref.world Ref.scenario)
           (Ref.table Ref.scenario)); try reflexivity.
  intros i numeroStr Hi Hdel Hnum.
  destruct i as [|[|i]]; [discriminate Hdel | | cbn in Hi; lia].
  injection Hnum as <-. reflexivity.
Defined.

(** C4 on the scenario of the specification. *)
Lemma C4_scenario_on_reference_table :
  "E320000000006" = "E32" +:+ Fmt.pad010d 6 /\
  (0 <= 6 < 10 ^ 10 -> String.length (Fmt.pad010d 6) = 10%nat) /\
  Strconv.ParseInt (sliceFrom 3 "E320000000006") = (6, None) /\
  sliceTo 3 "E320000000006" = "E32".
Proof.
  apply (C4_format_round_trip "E32" "A" (Ref.world Ref.scenario)
           (snd (GetSequence "E32" "A" (Ref.world Ref.scenario))));
    [reflexivity |].
  vm_compute. reflexivity.
Defined.

(** The store itself takes a [tipo] of any length: the call for "E3"
    succeeds on the record "E3200", and its sequence starts with "E3". *)
Example GetSequence_two_byte_type :
  fst (GetSequence "E3" "A" (Ref.world Ref.scenario))
  = ("E30000000006", 6, None).
Proof. vm_compute. reflexivity. Qed.

(** C5 on a table with two matching records after a deleted one. *)
Lemma C5_two_matches_on_reference_table :
  scanRecords (Ref.table Ref.twoMatches) "E32" "NUMERO_1" 0
    (NumberOfRecords (Ref.table Ref.twoMatches))
  = incrementCounter (Ref.table Ref.twoMatches) 1 "NUMERO_1".
Proof.
  apply (proj1 (C5_first_match_wins (fun _ => True))).
  split; [cbn; lia |]. split; [reflexivity |].
  intros j Hj. destruct j as [|j]; [reflexivity | lia].
Defined.

(** C6 on the scenario of the specification. *)
Lemma C6_scenario_on_reference_table :
  exists t t' f i,
    NewFromFile (disk (Ref.world Ref.scenario)) = inl t /\
    NewFromFile
      (disk (snd (GetSequence "E32" "A" (Ref.world Ref.scenario)))) = inl t' /\
    firstMatch t "E32" i /\
    ((f = "NUMERO_1" /\ ("A" = "A" \/ "A" = "a")) \/
     (f = "NUMERO_2" /\ ("A" = "B" \/ "A" = "b"))) /\
    NumberOfRecords t' = NumberOfRecords t /\
    (forall j, RowIsDeleted t' j = RowIsDeleted t j) /\
    (forall j g, j <> i \/ g <> f ->
       FieldValueByName t' j g = FieldValueByName t j g /\
       Int64FieldValueByName t' j g = Int64FieldValueByName t j g).
Proof.
  apply (C6_only_the_counter_changes (fun _ => True) "E32" "A"
           (Ref.world Ref.scenario)
           (snd (GetSequence "E32" "A" (Ref.world Ref.scenario)))
           "E320000000006" 6).
  vm_compute. reflexivity.
Defined.

(** C7 on the scenario of the specification. *)
Lemma C7_scenario_on_reference_table :
  exists t t' f i,
    NewFromFile (disk (Ref.world Ref.scenario)) = inl t /\
    NewFromFile
      (disk (snd (GetSequence "E32" "A" (Ref.world Ref.scenario)))) = inl t' /\
    channelField "A" = Some f /\
    firstMatch t "E32" i /\
    let old := fst (Int64FieldValueByName t i f) in
    (0 <= old < MaxInt64 ->
     6 = old + 1 /\ old < 6 /\
     (True -> Int64FieldValueByName t' i f = (old + 1, None))).
Proof.
  apply (C7_counter_increases_by_one (fun _ => True) "E32" "A"
           (Ref.world Ref.scenario)
           (snd (GetSequence "E32" "A" (Ref.world Ref.scenario)))
           "E320000000006" 6).
  vm_compute. reflexivity.
Defined.

(** The claim C7 fails at the largest [int64]: the call succeeds, and the
    number it returns and writes is the smallest [int64]. *)
Lemma C7_wraps_at_MaxInt64 :
  Int64FieldValueByName (Ref.table Ref.lastNumber) 0 "NUMERO_1"
  = (MaxInt64, None) /\
  fst (GetSequence "E32" "A" (Ref.world Ref.lastNumber))
  = ("E32-9223372036854775808", MinInt64, None) /\
  disk (snd (GetSequence "E32" "A" (Ref.world Ref.lastNumber)))
  = Some (Ref.table [Ref.record false "E3200" "-9223372036854775808" "0"]) /\
  MinInt64 <> MaxInt64 + 1 /\ MinInt64 < MaxInt64.
Proof.
  split; [vm_compute; reflexivity |]. split; [vm_compute; reflexivity |].
  split; [vm_compute; reflexivity |]. split; [discriminate | reflexivity].
Qed.



(** C10 on a table with no field [NUMERO]. *)
Lemma C10_no_NUMERO_on_reference_table :
  scanRecords Ref.noNumero "E32" "NUMERO_1" 0 1
  = scanRecords Ref.noNumero "E32" "NUMERO_1" 1 0 /\
  (forall j n t',
     scanRecords Ref.noNumero "E32" "NUMERO_1" 0 (NumberOfRecords Ref.noNumero)
     = Found j n t' -> j <> 0%nat) /\
  (forall j, firstMatch Ref.noNumero "E32" j ->
     scanRecords Ref.noNumero "E32" "NUMERO_1" 0 (NumberOfRecords Ref.noNumero)
     = incrementCounter Ref.noNumero j "NUMERO_1").
Proof.
  apply (C10_unreadable_skipped Ref.noNumero "E32" "NUMERO_1" 0 0
           EmptyString (Ref.noField "NUMERO")); reflexivity.
Defined.

(** The listing of the malformed table: both records are returned, the
    counters that do not parse as 0. *)
Example GetRecordTypes_malformed :
  List.map (fun c => (NCFTipo c, Numero1 c, Numero2 c))
    (fst (fst (GetRecordTypes (Ref.world Ref.malformed))))
  = [("E32", 0, 0); ("B03", 2, 7)].
Proof. vm_compute. reflexivity. Qed.

(** Five calls in turn on the scenario of the specification. *)
Example callsInTurn_scenario :
  fst (callsInTurn 5 "E32" "A" (Ref.world Ref.scenario)) = [6; 7; 8; 9; 10].
Proof. vm_compute. reflexivity. Qed.

(** * Further properties of the code *)

(** ** More on strings *)

Lemma append_String c a b : String c a +:+ b = String c (a +:+ b).
Proof. reflexivity. Qed.

Lemma append_assoc a b c : (a +:+ b) +:+ c = a +:+ (b +:+ c).
Proof.
  induction a as [|x a IH]; [reflexivity |].
  now rewrite !append_String, IH.
Qed.

Lemma list_ascii_of_string_append a b :
  list_ascii_of_string (a +:+ b) =
  (list_ascii_of_string a ++ list_ascii_of_string b)%list.
Proof. induction a as [|c a IH]; simpl; [reflexivity | now rewrite IH]. Qed.

Lemma revString_involutive s : revString (revString s) = s.
Proof.
  unfold revString.
  now rewrite list_ascii_of_string_of_list_ascii, rev_involutive,
    string_of_list_ascii_of_string.
Qed.

Lemma length_sliceTo n s :
  (n <= String.length s)%nat -> String.length (sliceTo n s) = n.
Proof.
  unfold sliceTo. revert s. induction n as [|n IH]; intros s Hn.
  - now destruct s.
  - destruct s as [|c s]; simpl in *; [lia |]. rewrite IH; [reflexivity | lia].
Qed.

Lemma HasPrefix_sliceTo n s : Strings.HasPrefix s (sliceTo n s) = true.
Proof.
  unfold Strings.HasPrefix, sliceTo. revert s.
  induction n as [|n IH]; intros s.
  - now destruct s.
  - destruct s as [|c s]; simpl; [reflexivity |].
    destruct (ascii_dec c c); [apply IH | congruence].
Qed.

Lemma HasSuffix_append a b : Strings.HasSuffix (a +:+ b) b = true.
Proof.
  unfold Strings.HasSuffix. rewrite length_append.
  replace (String.length a + String.length b - String.length b)%nat
    with (String.length a) by lia.
  rewrite sliceFrom_append, String.eqb_refl, andb_true_r.
  apply Nat.leb_le. lia.
Qed.

Lemma TrimSuffix_append a b : Strings.TrimSuffix (a +:+ b) b = a.
Proof.
  unfold Strings.TrimSuffix. rewrite HasSuffix_append, length_append.
  replace (String.length a + String.length b - String.length b)%nat
    with (String.length a) by lia.
  apply sliceTo_append.
Qed.

(** ** [strings.TrimSpace] on decimal numbers *)

Lemma plainByte_digitChar d : 0 <= d < 10 -> plainByte (Strconv.digitChar d) = true.
Proof.
  intros Hd.
  assert (Hcases : d = 0 \/ d = 1 \/ d = 2 \/ d = 3 \/ d = 4 \/ d = 5 \/
                   d = 6 \/ d = 7 \/ d = 8 \/ d = 9) by lia.
  repeat (destruct Hcases as [-> | Hcases]; [reflexivity |]).
  now subst.
Qed.

Lemma stripRune_plain c r :
  plainByte c = true ->
  Strings.stripRune Strings.spaceRunes (String c r) = None.
Proof.
  destruct c as [[] [] [] [] [] [] [] []]; vm_compute; intros Hc;
    first [discriminate Hc | reflexivity].
Qed.

Lemma stripRune_plain_rev c r :
  plainByte c = true ->
  Strings.stripRune (List.map revString Strings.spaceRunes) (String c r) = None.
Proof.
  destruct c as [[] [] [] [] [] [] [] []]; vm_compute; intros Hc;
    first [discriminate Hc | reflexivity].
Qed.

Lemma trimLeft_stop runes fuel s :
  Strings.stripRune runes s = None -> Strings.trimLeft runes fuel s = s.
Proof. intros Hs. destruct fuel; simpl; [reflexivity | now rewrite Hs]. Qed.

Lemma stripRune_blank r :
  Strings.stripRune Strings.spaceRunes (String " " r) = Some r.
Proof.
  destruct r as [|c r]; [reflexivity |].
  change (Strings.stripRune Strings.spaceRunes (String " " (String c r)))
    with (Some (String.substring 0 (String.length (String c r) - 0)
                  (String c r))).
  now rewrite Nat.sub_0_r, substring_all.
Qed.

Lemma trimLeft_blanks k s : forall fuel,
  (k <= fuel)%nat -> Strings.stripRune Strings.spaceRunes s = None ->
  Strings.trimLeft Strings.spaceRunes fuel (blanks k +:+ s) = s.
Proof.
  induction k as [|k IH]; intros fuel Hfuel Hs.
  - now apply trimLeft_stop.
  - destruct fuel as [|fuel]; [lia |].
    change (blanks (S k) +:+ s) with (String " " (blanks k +:+ s)).
    cbn [Strings.trimLeft].
    rewrite stripRune_blank. apply IH; [lia | exact Hs].
Qed.

Lemma length_blanks k : String.length (blanks k) = k.
Proof. induction k as [|k IH]; simpl; [reflexivity | now rewrite IH]. Qed.

(** White space is not taken off a text that starts and ends with a byte
    of a decimal number, and blanks in front of it are. *)
Lemma TrimSpace_blanks_plain k s :
  startsPlain s -> endsPlain s -> Strings.TrimSpace (blanks k +:+ s) = s.
Proof.
  intros (c & r & -> & Hc) (c' & l & Hrev & Hc').
  unfold Strings.TrimSpace. cbv zeta.
  rewrite trimLeft_blanks;
    [| rewrite length_append, length_blanks; lia | now apply stripRune_plain].
  assert (Hr : revString (String c r) = String c' (string_of_list_ascii l)).
  { unfold revString. now rewrite Hrev. }
  rewrite Hr, trimLeft_stop by now apply stripRune_plain_rev.
  rewrite <- Hr. apply revString_involutive.
Qed.

Lemma formatBits_append fuel : forall u acc,
  exists digits, Strconv.formatBits fuel u acc = digits +:+ acc.
Proof.
  induction fuel as [|fuel IH]; intros u acc.
  - now exists EmptyString.
  - rewrite formatBits_S. destruct (u <? 10).
    + now exists (String (Strconv.digitChar u) EmptyString).
    + destruct (IH (u / 10) (String (Strconv.digitChar (u mod 10)) acc))
        as [digits ->].
      exists (digits +:+ String (Strconv.digitChar (u mod 10)) EmptyString).
      now rewrite append_assoc.
Qed.

Lemma formatBits_startsPlain fuel : forall u acc,
  0 <= u -> startsPlain acc -> startsPlain (Strconv.formatBits fuel u acc).
Proof.
  induction fuel as [|fuel IH]; intros u acc Hu Hacc; [exact Hacc |].
  rewrite formatBits_S. destruct (Z.ltb_spec u 10).
  - eexists _, _. split; [reflexivity |]. apply plainByte_digitChar. lia.
  - apply IH; [apply Z.div_pos; lia |].
    eexists _, _. split; [reflexivity |].
    apply plainByte_digitChar. apply Z.mod_pos_bound. lia.
Qed.

Lemma FormatUint_startsPlain u : 0 <= u -> startsPlain (Strconv.FormatUint u).
Proof.
  intros Hu. unfold Strconv.FormatUint. rewrite formatBits_S.
  destruct (Z.ltb_spec u 10).
  - eexists _, _. split; [reflexivity |]. apply plainByte_digitChar. lia.
  - apply formatBits_startsPlain; [apply Z.div_pos; lia |].
    eexists _, _. split; [reflexivity |].
    apply plainByte_digitChar. apply Z.mod_pos_bound. lia.
Qed.

Lemma FormatUint_endsPlain u : 0 <= u -> endsPlain (Strconv.FormatUint u).
Proof.
  intros Hu. unfold Strconv.FormatUint, endsPlain. rewrite formatBits_S.
  destruct (Z.ltb_spec u 10).
  - exists (Strconv.digitChar u), []. split; [reflexivity |].
    apply plainByte_digitChar. lia.
  - destruct (formatBits_append 19 (u / 10)
                (String (Strconv.digitChar (u mod 10)) EmptyString))
      as [digits ->].
    exists (Strconv.digitChar (u mod 10)), (rev (list_ascii_of_string digits)).
    split.
    + rewrite list_ascii_of_string_append. simpl. now rewrite rev_app_distr.
    + apply plainByte_digitChar. apply Z.mod_pos_bound. lia.
Qed.

Lemma FormatInt_startsPlain n : startsPlain (Strconv.FormatInt n).
Proof.
  unfold Strconv.FormatInt. destruct (Z.ltb_spec n 0).
  - eexists _, _. split; reflexivity.
  - now apply FormatUint_startsPlain.
Qed.

Lemma FormatInt_endsPlain n : endsPlain (Strconv.FormatInt n).
Proof.
  unfold Strconv.FormatInt. destruct (Z.ltb_spec n 0).
  - destruct (FormatUint_endsPlain (- n)) as (c & l & Hrev & Hc); [lia |].
    exists c, (l ++ ["-"%char])%list. split; [| exact Hc].
    cbn [list_ascii_of_string rev]. now rewrite Hrev.
  - now apply FormatUint_endsPlain.
Qed.

Lemma TrimSpace_FormatInt n :
  Strings.TrimSpace (Strconv.FormatInt n) = Strconv.FormatInt n.
Proof.
  apply (TrimSpace_blanks_plain 0);
    [apply FormatInt_startsPlain | apply FormatInt_endsPlain].
Qed.

(** X7: the counter that [GetSequence] writes is the number that
    [parseInt] reads in a listing: for every [int64], [parseInt] of its
    decimal text, alone or right-aligned behind blanks, is the number. *)
Theorem parseInt_reads_written_counter n k :
  isInt64 n -> parseInt (blanks k +:+ Strconv.FormatInt n) = n.
Proof.
  intros Hn. unfold parseInt.
  rewrite TrimSpace_blanks_plain
    by (apply FormatInt_startsPlain || apply FormatInt_endsPlain).
  now rewrite ParseInt_FormatInt.
Qed.

Lemma parseInt_written_counter_at_minimum :
  parseInt (blanks 3 +:+ Strconv.FormatInt MinInt64) = MinInt64.
Proof.
  apply (parseInt_reads_written_counter MinInt64 3).
  unfold isInt64, MinInt64, MaxInt64. lia.
Defined.

(** ** The store: failures, listing and allocation together *)

Section StoreTogether.

Context {File Table : Type} `{TableFile File Table}.

(** X1: a call that fails returns no sequence and the number 0 and writes
    nothing to the log; unless the failure is that of the save, the file
    is as before the call and was only opened. *)
Theorem failed_call_keeps_the_file tipo cta (w w' : World File) sequence n err :
  GetSequence tipo cta w = ((sequence, n, Some err), w') ->
  sequence = EmptyString /\ n = 0 /\
  sequenceLog w' = sequenceLog w /\
  ((forall e, err <> ErrSave e) ->
   disk w' = disk w /\ fileOps w' = (fileOps w ++ [OpOpen])%list).
Proof.
  unfold GetSequence.
  destruct (NewFromFile (disk w)) as [t | e];
    [| intros [= <- <- <- <-]; repeat split; reflexivity].
  destruct (channelField cta) as [f |];
    [| intros [= <- <- <- <-]; repeat split; reflexivity].
  destruct (scanRecords t tipo f 0 (NumberOfRecords t)) as [i n' t' | e |];
    [| intros [= <- <- <- <-]; repeat split; reflexivity
     | intros [= <- <- <- <-]; repeat split; reflexivity].
  destruct (SaveToFile t' (disk w)) as [d' [e |]]; [| discriminate].
  intros [= <- <- <- <-].
  split; [reflexivity |]. split; [reflexivity |]. split; [reflexivity |].
  intros Hsave. now elim (Hsave e).
Qed.

Lemma GetSequence_reads_the_disk tipo cta (w1 w2 : World File) :
  disk w1 = disk w2 ->
  fst (GetSequence tipo cta w1) = fst (GetSequence tipo cta w2) /\
  disk (snd (GetSequence tipo cta w1)) = disk (snd (GetSequence tipo cta w2)).
Proof.
  intros Hdisk. unfold GetSequence. rewrite Hdisk.
  destruct (NewFromFile (disk w2)) as [t | e]; [| now split].
  destruct (channelField cta) as [f |]; [| now split].
  destruct (scanRecords t tipo f 0 (NumberOfRecords t)) as [i n' t' | e |];
    [| now split | now split].
  destruct (SaveToFile t' (disk w2)) as [d' [e |]]; now split.
Qed.

(** X2: a listing writes neither the file nor the log, and a call of
    [GetSequence] after a listing returns what it returns without the
    listing and leaves the same file. *)
Theorem listing_leaves_numbering tipo cta (w : World File) :
  disk (snd (GetRecordTypes w)) = disk w /\
  sequenceLog (snd (GetRecordTypes w)) = sequenceLog w /\
  fileOps (snd (GetRecordTypes w)) = (fileOps w ++ [OpOpen])%list /\
  fst (GetSequence tipo cta (snd (GetRecordTypes w)))
  = fst (GetSequence tipo cta w) /\
  disk (snd (GetSequence tipo cta (snd (GetRecordTypes w))))
  = disk (snd (GetSequence tipo cta w)).
Proof.
  assert (Hworld : snd (GetRecordTypes w) =
                   mkWorld (disk w) (fileOps w ++ [OpOpen]) (sequenceLog w)).
  { unfold GetRecordTypes. now destruct (NewFromFile (disk w)). }
  rewrite Hworld. cbn [disk fileOps sequenceLog].
  split; [reflexivity |]. split; [reflexivity |]. split; [reflexivity |].
  now apply GetSequence_reads_the_disk.
Qed.

Lemma listed_records (w : World File) c :
  In c (fst (fst (GetRecordTypes w))) ->
  exists t i,
    NewFromFile (disk w) = inl t /\ (i < NumberOfRecords t)%nat /\
    RowIsDeleted t i = false /\ c = decodeRecord t i.
Proof.
  unfold GetRecordTypes. destruct (NewFromFile (disk w)) as [t | e];
    cbn [fst]; [| intros []].
  rewrite listRecords_spec. cbn [app]. intros Hc.
  apply in_map_iff in Hc as (i & <- & Hi).
  apply filter_In in Hi as [Hi Hlive]. apply in_seq in Hi.
  exists t, i. split; [reflexivity |]. split; [lia |].
  split; [now destruct (RowIsDeleted t i) | reflexivity].
Qed.

(** X3: in every record of a listing, [NCFTipo] is empty when the trimmed
    [NUMERO] has fewer than 3 bytes, and its first 3 bytes otherwise; in
    both cases [Numero] starts with [NCFTipo]. *)
Theorem listed_type_is_prefix (w : World File) c :
  In c (fst (fst (GetRecordTypes w))) ->
  Strings.HasPrefix (Numero c) (NCFTipo c) = true /\
  ((NCFTipo c = EmptyString /\ (String.length (Numero c) < 3)%nat) \/
   (NCFTipo c = sliceTo 3 (Numero c) /\ String.length (NCFTipo c) = 3%nat)).
Proof.
  intros Hc. destruct (listed_records w c Hc) as (t & i & _ & _ & _ & ->).
  cbn [decodeRecord Numero NCFTipo].
  destruct (Nat.leb_spec 3
              (String.length
                 (Strings.TrimSpace (fst (FieldValueByName t i "NUMERO")))))
    as [Hlong | Hshort].
  - split; [apply HasPrefix_sliceTo |]. right.
    split; [reflexivity | now apply length_sliceTo].
  - split; [| left; split; [reflexivity | exact Hshort]].
    unfold Strings.HasPrefix. now destruct (Strings.TrimSpace _).
Qed.

(** X4: a type that a listing shows can be allocated: when [NUMERO] is
    read without error in every record, [GetSequence] with the [NCFTipo]
    of a listed record, when it is not empty, and a channel [A] or [B]
    does not fail with the not-found error. *)
Theorem listed_type_is_found (w : World File) (t : Table) c cta f :
  NewFromFile (disk w) = inl t ->
  (forall i, (i < NumberOfRecords t)%nat ->
     snd (FieldValueByName t i "NUMERO") = None) ->
  In c (fst (fst (GetRecordTypes w))) ->
  NCFTipo c <> EmptyString ->
  channelField cta = Some f ->
  forall tipo, snd (fst (GetSequence (NCFTipo c) cta w)) <> Some (ErrNotFound tipo).
Proof.
  intros Hopen Hreadable Hc Hshown Hf tipo.
  destruct (listed_records w c Hc) as (t0 & i & Hopen0 & Hi & Hlive & ->).
  rewrite Hopen in Hopen0. injection Hopen0 as <-.
  assert (Hmatch : recordMatches t (NCFTipo (decodeRecord t i)) i = true).
  { unfold recordMatches. rewrite Hlive. cbn [negb andb].
    specialize (Hreadable i Hi). cbn [decodeRecord NCFTipo] in Hshown |- *.
    destruct (FieldValueByName t i "NUMERO") as [numeroStr e].
    cbn [fst snd] in *. subst e.
    destruct (3 <=? String.length (Strings.TrimSpace numeroStr))%nat;
      [apply HasPrefix_sliceTo | congruence]. }
  unfold GetSequence. rewrite Hopen, Hf.
  destruct (scanRecords_spec t (NCFTipo (decodeRecord t i)) f
              (NumberOfRecords t) 0)
    as [(j & _ & _ & _ & ->) | [Hnone _]].
  - unfold incrementCounter.
    destruct (SetFieldValueByName t j f _) as [t' [e |]]; [discriminate |].
    destruct (SaveToFile t' (disk w)) as [d' [e |]]; discriminate.
  - rewrite Hnone in Hmatch by lia. discriminate.
Qed.

End StoreTogether.

(** ** The store under the laws of the capability: calls together *)

Section LawfulCalls.

Context {File Table : Type} `{TableFile File Table}.
Context (fits : Z -> Prop) `{!TableLaws fits}.

(** A call on a first match whose counter is read without error, when
    the saves succeed. *)
Lemma GetSequence_readable tipo cta f (w : World File) (t : Table) i :
  (forall t' d, snd (SaveToFile t' d) = None) ->
  NewFromFile (disk w) = inl t ->
  channelField cta = Some f ->
  firstMatch t tipo i ->
  snd (Int64FieldValueByName t i f) = None ->
  exists w' t',
    GetSequence tipo cta w =
      ((Fmt.Sprintf_s_010d tipo (add64 (fst (Int64FieldValueByName t i f)) 1),
        add64 (fst (Int64FieldValueByName t i f)) 1, None), w') /\
    SetFieldValueByName t i f
      (Strconv.FormatInt (add64 (fst (Int64FieldValueByName t i f)) 1))
    = (t', None) /\
    NewFromFile (disk w') = inl t'.
Proof.
  intros Hsaves Hopen Hf Hfirst Hread.
  set (n := add64 (fst (Int64FieldValueByName t i f)) 1).
  pose proof (set_readable t i f (Strconv.FormatInt n) Hread) as Hset.
  destruct (SetFieldValueByName t i f (Strconv.FormatInt n)) as [t' e] eqn:Hset'.
  cbn [snd] in Hset. subst e.
  pose proof (Hsaves t' (disk w)) as Hsave.
  destruct (SaveToFile t' (disk w)) as [d' e] eqn:Hsave'.
  cbn [snd] in Hsave. subst e.
  eexists. exists t'. split; [| split; [reflexivity |]].
  - unfold GetSequence. rewrite Hopen, Hf.
    rewrite (scanRecords_firstMatch t tipo f i Hfirst).
    unfold incrementCounter. fold n. rewrite Hset', Hsave'. reflexivity.
  - cbn [disk]. exact (save_NewFromFile _ _ _ Hsave').
Qed.

Lemma call_after_another tipo1 cta1 f1 i tipo2 cta2 f2 j
    (w : World File) (t : Table) :
  (forall t' d, snd (SaveToFile t' d) = None) ->
  NewFromFile (disk w) = inl t ->
  channelField cta1 = Some f1 -> channelField cta2 = Some f2 ->
  firstMatch t tipo1 i -> firstMatch t tipo2 j ->
  j <> i \/ f2 <> f1 ->
  snd (Int64FieldValueByName t i f1) = None ->
  snd (Int64FieldValueByName t j f2) = None ->
  fst (GetSequence tipo2 cta2 (snd (GetSequence tipo1 cta1 w)))
  = fst (GetSequence tipo2 cta2 w).
Proof.
  intros Hsaves Hopen Hf1 Hf2 Hfirst1 Hfirst2 Hother Hread1 Hread2.
  destruct (GetSequence_readable tipo1 cta1 f1 w t i)
    as (w1 & t1 & Hcall1 & Hset1 & Hopen1); auto.
  pose proof (set_Int64FieldValue_other _ _ _ _ _ j f2 Hset1 Hother) as Hsame.
  destruct (GetSequence_readable tipo2 cta2 f2 w1 t1 j)
    as (w2 & t2 & Hcall2 & _); auto.
  { exact (firstMatch_set fits _ _ _ _ _ _ _ Hset1
             (channelField_not_NUMERO _ _ Hf1) Hfirst2). }
  { now rewrite Hsame. }
  destruct (GetSequence_readable tipo2 cta2 f2 w t j)
    as (w3 & t3 & Hcall3 & _); auto.
  rewrite Hcall1. cbn [snd]. rewrite Hcall2, Hcall3, Hsame. reflexivity.
Qed.

(** X6: two calls that select different records, or different channels
    of one record, do not change each other's result: each returns after
    the other what it returns alone, in either order. The saves are taken
    to succeed and both counters to be read without error. *)
Theorem independent_calls tipo1 cta1 f1 i tipo2 cta2 f2 j
    (w : World File) (t : Table) :
  (forall t' d, snd (SaveToFile t' d) = None) ->
  NewFromFile (disk w) = inl t ->
  channelField cta1 = Some f1 -> channelField cta2 = Some f2 ->
  firstMatch t tipo1 i -> firstMatch t tipo2 j ->
  i <> j \/ f1 <> f2 ->
  snd (Int64FieldValueByName t i f1) = None ->
  snd (Int64FieldValueByName t j f2) = None ->
  fst (GetSequence tipo2 cta2 (snd (GetSequence tipo1 cta1 w)))
  = fst (GetSequence tipo2 cta2 w) /\
  fst (GetSequence tipo1 cta1 (snd (GetSequence tipo2 cta2 w)))
  = fst (GetSequence tipo1 cta1 w).
Proof.
  intros Hsaves Hopen Hf1 Hf2 Hfirst1 Hfirst2 Hother Hread1 Hread2. split.
  - apply (call_after_another tipo1 cta1 f1 i tipo2 cta2 f2 j w t); auto.
    destruct Hother; [left | right]; congruence.
  - apply (call_after_another tipo2 cta2 f2 j tipo1 cta1 f1 i w t); auto.
Qed.

Context `{!TableTextLaws fits}.

Lemma live_record_is_listed (w : World File) (t : Table) i :
  NewFromFile (disk w) = inl t ->
  (i < NumberOfRecords t)%nat -> RowIsDeleted t i = false ->
  In (decodeRecord t i) (fst (fst (GetRecordTypes w))).
Proof.
  intros Hopen Hi Hlive. unfold GetRecordTypes. rewrite Hopen. cbn [fst].
  rewrite listRecords_spec. cbn [app]. apply in_map.
  apply filter_In. split; [apply in_seq; lia | now rewrite Hlive].
Qed.

(** X8: after a call that succeeds with the number [n], the field being
    wide enough for it, a listing shows the record the call selected with
    [n] as [Numero1] when the channel was [A], as [Numero2] when it was
    [B]. *)
Theorem listing_shows_issued_number tipo cta (w w' : World File) sequence n :
  GetSequence tipo cta w = ((sequence, n, None), w') ->
  fits n ->
  exists t' i,
    NewFromFile (disk w') = inl t' /\
    firstMatch t' tipo i /\
    In (decodeRecord t' i) (fst (fst (GetRecordTypes w'))) /\
    (cta = "A" \/ cta = "a" -> Numero1 (decodeRecord t' i) = n) /\
    (cta = "B" \/ cta = "b" -> Numero2 (decodeRecord t' i) = n).
Proof.
  intros Hcall Hfits.
  destruct (GetSequence_success _ _ _ _ _ _ Hcall)
    as (t & f & i & t' & Hopen & Hf & Hfirst & Hn & Hset & Hsave & _).
  pose proof (save_NewFromFile _ _ _ Hsave) as Hopen'.
  pose proof (firstMatch_set fits _ _ _ _ _ _ _ Hset
                (channelField_not_NUMERO _ _ Hf) Hfirst) as Hfirst'.
  assert (Hint : isInt64 n) by (rewrite Hn; apply add64_isInt64).
  destruct (set_FieldValue_same t i f n t' Hset (proj1 Hfirst) Hint Hfits)
    as (text & Htext & Htrim).
  assert (Hparse : parseInt text = n).
  { unfold parseInt. now rewrite Htrim, ParseInt_FormatInt. }
  exists t', i. split; [exact Hopen' |]. split; [exact Hfirst' |]. split.
  - apply live_record_is_listed; [exact Hopen' | apply Hfirst' |].
    destruct Hfirst' as (_ & Hm & _). unfold recordMatches in Hm.
    now destruct (RowIsDeleted t' i).
  - destruct (channelField_Some _ _ Hf) as [[-> Hcta] | [-> Hcta]]; split;
      intros Hcta'; cbn [decodeRecord Numero1 Numero2];
      try (rewrite Htext; exact Hparse);
      destruct Hcta as [-> | ->], Hcta' as [? | ?]; discriminate.
Qed.

End LawfulCalls.

Module RefTextFacts.

Import Ref.

#[global] Instance tableTextLaws : TableTextLaws (fun _ => True).
Proof.
  split. intros t i f n t' Hset Hi Hn _.
  destruct (RefFacts.setFieldValueByName_ok _ _ _ _ _ Hset) as [Hf ->].
  exists (Strconv.FormatInt n). split; [| apply TrimSpace_FormatInt].
  cbn in Hi |- *. unfold fieldValueByName, hasField in *. cbn [tblFields].
  now rewrite Hf, RefFacts.fieldText_set_same by exact Hi.
Qed.

End RefTextFacts.

(** X5 on the scenario of the specification. *)
Lemma calls_in_turn_on_reference_table :
  fst (callsInTurn 5 "E32" "A" (Ref.world Ref.scenario)) = numbersFrom 5 5.
Proof.
  apply (callsInTurn_numbers (fun _ => True) "E32" "A" "NUMERO_1" 1 5
           (Ref.world Ref.scenario) (Ref.table Ref.scenario) 5);
    try exact I; try reflexivity.
  - split; [cbn; lia |]. split; [reflexivity |].
    intros j Hj. destruct j as [|j]; [reflexivity | lia].
  - unfold MinInt64. lia.
  - unfold MaxInt64. lia.
Defined.

(** X1 on the type [ZZZ], which no record has. *)
Lemma failed_call_on_reference_table :
  EmptyString = EmptyString /\ 0 = 0 /\
  sequenceLog (snd (GetSequence "ZZZ" "A" (Ref.world Ref.scenario)))
  = sequenceLog (Ref.world Ref.scenario) /\
  ((forall e, ErrNotFound "ZZZ" <> ErrSave e) ->
   disk (snd (GetSequence "ZZZ" "A" (Ref.world Ref.scenario)))
   = disk (Ref.world Ref.scenario) /\
   fileOps (snd (GetSequence "ZZZ" "A" (Ref.world Ref.scenario)))
   = (fileOps (Ref.world Ref.scenario) ++ [OpOpen])%list).
Proof.
  apply (failed_call_keeps_the_file "ZZZ" "A" (Ref.world Ref.scenario)
           (snd (GetSequence "ZZZ" "A" (Ref.world Ref.scenario)))
           EmptyString 0 (ErrNotFound "ZZZ")).
  vm_compute. reflexivity.
Defined.

(** X3 and X4 on the listing of the malformed table. *)
Lemma listed_type_on_reference_table :
  Strings.HasPrefix (Numero (decodeRecord (Ref.table Ref.malformed) 0))
    (NCFTipo (decodeRecord (Ref.table Ref.malformed) 0)) = true /\
  ((NCFTipo (decodeRecord (Ref.table Ref.malformed) 0) = EmptyString /\
    (String.length (Numero (decodeRecord (Ref.table Ref.malformed) 0)) < 3)%nat)
   \/
   (NCFTipo (decodeRecord (Ref.table Ref.malformed) 0)
    = sliceTo 3 (Numero (decodeRecord (Ref.table Ref.malformed) 0)) /\
    String.length (NCFTipo (decodeRecord (Ref.table Ref.malformed) 0))
    = 3%nat)).
Proof.
  apply (listed_type_is_prefix (Ref.world Ref.malformed)
           (decodeRecord (Ref.table Ref.malformed) 0)).
  left. reflexivity.
Defined.

Lemma listed_type_found_on_reference_table :
  snd (fst (GetSequence
              (NCFTipo (decodeRecord (Ref.table Ref.malformed) 0)) "A"
              (Ref.world Ref.malformed)))
  <> Some (ErrNotFound "E32").
Proof.
  refine (listed_type_is_found (Ref.world Ref.malformed)
            (Ref.table Ref.malformed)
            (decodeRecord (Ref.table Ref.malformed) 0) "A" "NUMERO_1"
            _ _ _ _ _ "E32");
    try reflexivity.
  - left. reflexivity.
  - vm_compute. discriminate.
Defined.

(** X6 on two types, and on the two channels of one type. *)
Lemma independent_calls_on_reference_table :
  (fst (GetSequence "E32" "A"
          (snd (GetSequence "E31" "A" (Ref.world Cases.twoTypes))))
   = fst (GetSequence "E32" "A" (Ref.world Cases.twoTypes)) /\
   fst (GetSequence "E31" "A"
          (snd (GetSequence "E32" "A" (Ref.world Cases.twoTypes))))
   = fst (GetSequence "E31" "A" (Ref.world Cases.twoTypes))) /\
  (fst (GetSequence "E32" "B"
          (snd (GetSequence "E32" "A" (Ref.world Cases.twoTypes))))
   = fst (GetSequence "E32" "B" (Ref.world Cases.twoTypes)) /\
   fst (GetSequence "E32" "A"
          (snd (GetSequence "E32" "B" (Ref.world Cases.twoTypes))))
   = fst (GetSequence "E32" "A" (Ref.world Cases.twoTypes))).
Proof.
  assert (Hfirst0 : firstMatch (Ref.table Cases.twoTypes) "E31" 0).
  { split; [cbn; lia |]. split; [reflexivity |]. intros j Hj. lia. }
  assert (Hfirst1 : firstMatch (Ref.table Cases.twoTypes) "E32" 1).
  { split; [cbn; lia |]. split; [reflexivity |].
    intros j Hj. destruct j as [|j]; [reflexivity | lia]. }
  split.
  - apply (independent_calls (fun _ => True) "E31" "A" "NUMERO_1" 0
             "E32" "A" "NUMERO_1" 1 (Ref.world Cases.twoTypes)
             (Ref.table Cases.twoTypes)); try reflexivity; try assumption.
    left. discriminate.
  - apply (independent_calls (fun _ => True) "E32" "A" "NUMERO_1" 1
             "E32" "B" "NUMERO_2" 1 (Ref.world Cases.twoTypes)
             (Ref.table Cases.twoTypes)); try reflexivity; try assumption.
    right. discriminate.
Defined.

(** X8 on the scenario of the specification. *)
Lemma listing_after_call_on_reference_table :
  exists t' i,
    NewFromFile (disk (snd (GetSequence "E32" "A" (Ref.world Ref.scenario))))
    = inl t' /\
    firstMatch t' "E32" i /\
    In (decodeRecord t' i)
      (fst (fst (GetRecordTypes
                   (snd (GetSequence "E32" "A" (Ref.world Ref.scenario)))))) /\
    ("A" = "A" \/ "A" = "a" -> Numero1 (decodeRecord t' i) = 6) /\
    ("A" = "B" \/ "A" = "b" -> Numero2 (decodeRecord t' i) = 6).
Proof.
  apply (listing_shows_issued_number (fun _ => True) "E32" "A"
           (Ref.world Ref.scenario)
           (snd (GetSequence "E32" "A" (Ref.world Ref.scenario)))
           "E320000000006" 6); [| exact I].
  vm_compute. reflexivity.
Defined.

(** ** Starting the [Manager] and checking the service *)

(** X9: [NewManager] succeeds exactly when the log file opens and
    [os.Stat] does not report the table as missing (an error of another
    kind lets it through); it never looks for the index. The [Manager]
    keeps the path given; its index path is the path with a final [.DBF],
    in upper case, replaced by [.CDX], and the path followed by [.CDX]
    when it does not end so. *)
Theorem NewManager_paths fs path :
  match NewManager fs path with
  | inl m =>
      openLog fs = None /\ IsNotExist (stat fs path) = false /\
      dbfPath m = path /\
      (forall stem, path = stem +:+ ".DBF" -> cdxPath m = stem +:+ ".CDX") /\
      (Strings.HasSuffix path ".DBF" = false -> cdxPath m = path +:+ ".CDX")
  | inr (ErrLogFile e) => openLog fs = Some e
  | inr (ErrNoDBF missing) =>
      missing = path /\ openLog fs = None /\ stat fs path = StatNotExist
  | inr (ErrNoCDX _) => False
  end.
Proof.
  unfold NewManager. destruct (openLog fs) as [e |]; [reflexivity |].
  destruct (stat fs path) as [| | e] eqn:Hstat; cbn [IsNotExist];
    try (split; [reflexivity |]; split; [reflexivity |];
         split; [reflexivity |]; split;
         [ intros stem ->; cbn [cdxPath]; now rewrite TrimSuffix_append
         | intros Hsuffix; cbn [cdxPath]; unfold Strings.TrimSuffix;
           now rewrite Hsuffix ]).
  auto.
Qed.

Example NewManager_lower_case :
  NewManager Cases.lowerCase "C:/fac/FAC_PF_M.dbf"
  = inl (mkManager "C:/fac/FAC_PF_M.dbf" "C:/fac/FAC_PF_M.dbf.CDX").
Proof. reflexivity. Qed.

(** X10: a path that the installer's [validateFiles] accepts starts the
    [Manager] when the log file opens, and the index path of the
    [Manager] is the one the installer found. *)
Theorem validated_files_start_the_manager fs path :
  validateFiles fs path = None ->
  openLog fs = None ->
  exists m,
    NewManager fs path = inl m /\ dbfPath m = path /\
    IsNotExist (stat fs (cdxPath m)) = false.
Proof.
  unfold validateFiles, NewManager. intros Hvalid ->.
  destruct (IsNotExist (stat fs path)); [discriminate |].
  destruct (IsNotExist (stat fs (Strings.TrimSuffix path ".DBF" +:+ ".CDX")))
    eqn:Hcdx; [discriminate |].
  eexists. split; [reflexivity |]. split; [reflexivity | exact Hcdx].
Qed.

Lemma validated_files_with_index :
  exists m,
    NewManager Cases.withIndex "C:/fac/FAC_PF_M.DBF" = inl m /\
    dbfPath m = "C:/fac/FAC_PF_M.DBF" /\
    IsNotExist (stat Cases.withIndex (cdxPath m)) = false.
Proof.
  apply (validated_files_start_the_manager Cases.withIndex
           "C:/fac/FAC_PF_M.DBF"); reflexivity.
Defined.

Lemma pollService_ok q remaining : forall k sleeps sleeps',
  pollService q k remaining sleeps = (None, sleeps') <->
  exists d, (d < remaining)%nat /\ sleeps' = (sleeps + d)%nat /\
            q (k + d)%nat = inl Running /\
            forall j, (j < d)%nat -> q (k + j)%nat = inl StartPending.
Proof.
  induction remaining as [|remaining IH]; intros k sleeps sleeps'.
  - split; [discriminate | intros (d & Hd & _); lia].
  - cbn [pollService]. split.
    + destruct (q k) as [state | e] eqn:Hk; [| discriminate].
      destruct state; try discriminate.
      * intros Hpoll. apply IH in Hpoll as (d & Hd & -> & Hrun & Hstart).
        exists (S d). split; [lia |]. split; [lia |].
        split; [now rewrite Nat.add_succ_r |].
        intros j Hj. destruct j as [|j]; [now rewrite Nat.add_0_r |].
        rewrite Nat.add_succ_r. apply Hstart. lia.
      * intros [= <-]. exists O. split; [lia |]. split; [lia |].
        split; [now rewrite Nat.add_0_r | intros j Hj; lia].
    + intros (d & Hd & -> & Hrun & Hstart). destruct d as [|d].
      * rewrite Nat.add_0_r in Hrun |- *. now rewrite Hrun.
      * pose proof (Hstart O ltac:(lia)) as Hk. rewrite Nat.add_0_r in Hk.
        rewrite Hk. apply IH. exists d. split; [lia |]. split; [lia |].
        split; [now rewrite Nat.add_succ_r in Hrun |].
        intros j Hj. specialize (Hstart (S j) ltac:(lia)).
        now rewrite Nat.add_succ_r in Hstart.
Qed.

(** X11: [verifyServiceStatus] returns no error after [sleeps] seconds of
    sleep exactly when the service manager is reached, the service opens,
    and the service is running at query [sleeps], one of the first 10,
    having been starting at every query before. *)
Theorem verifyServiceStatus_succeeds_iff m sleeps :
  verifyServiceStatus m = (None, sleeps) <->
  connect m = None /\ openService m = None /\ (sleeps < 10)%nat /\
  query m sleeps = inl Running /\
  forall j, (j < sleeps)%nat -> query m j = inl StartPending.
Proof.
  unfold verifyServiceStatus. split.
  - destruct (connect m); [discriminate |].
    destruct (openService m); [discriminate |].
    intros Hpoll. apply pollService_ok in Hpoll as (d & Hd & -> & Hrun & Hstart).
    auto.
  - intros (-> & -> & Hlt & Hrun & Hstart).
    apply pollService_ok. exists sleeps. auto.
Qed.

Lemma verifyServiceStatus_slow_start :
  verifyServiceStatus Cases.slowStart = (None, 3%nat).
Proof.
  apply (proj2 (verifyServiceStatus_succeeds_iff Cases.slowStart 3)).
  split; [reflexivity |]. split; [reflexivity |]. split; [lia |].
  split; [reflexivity |].
  intros j Hj. destruct j as [|[|[|j]]]; [reflexivity .. | lia].
Defined.

Example verifyServiceStatus_stuck :
  verifyServiceStatus Cases.stuck = (Some ErrTimeout, 10%nat).
Proof. reflexivity. Qed.

(** ** Decoding the body of a request *)

Lemma storeMember_type_cta key v type cta :
  Json.storeMember key v [("type", type); ("cta", cta)] =
  if String.eqb (Json.foldName "type") (Json.foldName key)
  then let (s, bad) := Json.storeString v type in
       ([("type", s); ("cta", cta)], bad)
  else if String.eqb (Json.foldName "cta") (Json.foldName key)
  then let (s, bad) := Json.storeString v cta in
       ([("type", type); ("cta", s)], bad)
  else ([("type", type); ("cta", cta)], false).
Proof.
  unfold Json.storeMember. cbn [Json.storeAt].
  destruct (String.eqb_spec key "type") as [-> | Htype].
  { cbn. now destruct (Json.storeString v type). }
  destruct (String.eqb_spec key "cta") as [-> | Hcta].
  { cbn. now destruct (Json.storeString v cta). }
  destruct (String.eqb (Json.foldName "type") (Json.foldName key)).
  { now destruct (Json.storeString v type). }
  destruct (String.eqb (Json.foldName "cta") (Json.foldName key));
    [| reflexivity].
  now destruct (Json.storeString v cta).
Qed.

Lemma storeMember_type key v type :
  Json.storeMember key v [("type", type)] =
  if String.eqb (Json.foldName "type") (Json.foldName key)
  then let (s, bad) := Json.storeString v type in ([("type", s)], bad)
  else ([("type", type)], false).
Proof.
  unfold Json.storeMember. cbn [Json.storeAt].
  destruct (String.eqb_spec key "type") as [-> | Htype].
  { cbn. now destruct (Json.storeString v type). }
  destruct (String.eqb (Json.foldName "type") (Json.foldName key));
    [| reflexivity].
  now destruct (Json.storeString v type).
Qed.

(** An error saved while decoding is returned at the end. *)
Lemma decodeObject_failed members : forall fields,
  snd (Json.decodeObject members fields true) = true.
Proof.
  induction members as [|[key v] members IH]; intros fields; [reflexivity |].
  cbn [Json.decodeObject].
  destruct (Json.storeMember key v fields) as [fields' bad]. apply IH.
Qed.

(** An object decoded without error into the struct of the present
    handler is decoded without error into the struct of the earlier one,
    with the same [type]. *)
Lemma decodeObject_type_cta members : forall type cta failed,
  exists type' cta' failed',
    Json.decodeObject members [("type", type); ("cta", cta)] failed
    = ([("type", type'); ("cta", cta')], failed') /\
    (failed' = false ->
     failed = false /\
     Json.decodeObject members [("type", type)] false
     = ([("type", type')], false)).
Proof.
  induction members as [|[key v] members IH]; intros type cta failed.
  - exists type, cta, failed. split; [reflexivity |]. intros ->. auto.
  - cbn [Json.decodeObject].
    rewrite storeMember_type_cta, storeMember_type.
    destruct (String.eqb (Json.foldName "type") (Json.foldName key)).
    + destruct (Json.storeString v type) as [s bad].
      destruct (IH s cta (failed || bad)) as (type' & cta' & failed' & -> & Hok).
      exists type', cta', failed'. split; [reflexivity |]. intros Hfailed.
      destruct (Hok Hfailed) as [Hor Hearlier].
      apply orb_false_elim in Hor as [-> ->]. auto.
    + destruct (String.eqb (Json.foldName "cta") (Json.foldName key)).
      * destruct (Json.storeString v cta) as [s bad].
        destruct (IH type s (failed || bad))
          as (type' & cta' & failed' & -> & Hok).
        exists type', cta', failed'. split; [reflexivity |]. intros Hfailed.
        destruct (Hok Hfailed) as [Hor Hearlier].
        apply orb_false_elim in Hor as [-> _]. auto.
      * destruct (IH type cta (failed || false))
          as (type' & cta' & failed' & -> & Hok).
        exists type', cta', failed'. split; [reflexivity |]. intros Hfailed.
        destruct (Hok Hfailed) as [Hor Hearlier].
        apply orb_false_elim in Hor as [-> _]. auto.
Qed.

Lemma decodeSequenceRequest_earlier body type cta :
  decodeSequenceRequest body = Some (type, cta) ->
  decodeSequenceRequestV1 body = Some type.
Proof.
  unfold decodeSequenceRequest, decodeSequenceRequestV1, Json.Decode.
  destruct body as [[| b | literal | s | elements | members] |];
    try discriminate.
  - intros [= <- <-]. reflexivity.
  - cbn [Json.zero map].
    destruct (decodeObject_type_cta members EmptyString EmptyString false)
      as (type' & cta' & failed' & -> & Hok).
    destruct failed'; [discriminate |].
    destruct (Hok eq_refl) as [_ ->]. intros [= <- <-]. reflexivity.
Qed.

Lemma decodeSequenceRequest_sequenceBody type cta :
  decodeSequenceRequest (Some (sequenceBody type cta)) = Some (type, cta).
Proof. reflexivity. Qed.

(** ** The HTTP handlers *)

Section Handlers.

Context {File Table : Type} `{TableFile File Table}.

Lemma defaultCTA_not_B cta : cta <> "B" -> defaultCTA cta = "A".
Proof.
  intros HB. unfold defaultCTA.
  destruct (String.eqb_spec cta EmptyString); [reflexivity |].
  destruct (String.eqb_spec cta "A") as [-> |]; [reflexivity |].
  destruct (String.eqb_spec cta "B"); [congruence | reflexivity].
Qed.

Lemma defaultCTA_A_or_B cta : defaultCTA cta = "A" \/ defaultCTA cta = "B".
Proof.
  destruct (String.eqb_spec cta "B") as [-> | HB]; [now right |].
  left. now apply defaultCTA_not_B.
Qed.

(** Settles one case of the guards of a handler, where the status is
    known. *)
Ltac settle_guards :=
  cbn [fst snd respStatus httpError];
  repeat match goal with
         | |- _ /\ _ => split
         | |- _ <-> _ => split
         | |- _ -> _ => intro
         | H : _ /\ _ |- _ => destruct H
         | H : exists _, _ |- _ => destruct H
         | H : _ \/ _ |- _ => destruct H
         end;
  try discriminate; try congruence; try reflexivity; eauto 6.

(** X12: the handler of [/api/sequence] answers 405 exactly to a request
    that is not a POST, 401 exactly to a POST without the configured key,
    400 exactly to a POST with the key whose body does not decode or whose
    type has not 3 bytes, and reaches the store, answering 200 or 500,
    exactly for a POST with the key whose body decodes and whose type has
    3 bytes. A request that does not reach the store leaves the table file
    unopened and unchanged, and only the 401 writes to the log. *)
Theorem handleSequence_guards apiKey r (w : World File) :
  let status := respStatus (fst (handleSequence apiKey r w)) in
  let after := snd (handleSequence apiKey r w) in
  let decoded := decodeSequenceRequest (reqBody r) in
  (status = StatusMethodNotAllowed <-> reqMethod r <> "POST") /\
  (status = StatusUnauthorized <->
   reqMethod r = "POST" /\ reqAPIKey r <> apiKey) /\
  (status = StatusBadRequest <->
   reqMethod r = "POST" /\ reqAPIKey r = apiKey /\
   (decoded = None \/
    exists type cta,
      decoded = Some (type, cta) /\ String.length type <> 3%nat)) /\
  ((status = StatusOK \/ status = StatusInternalServerError) <->
   reqMethod r = "POST" /\ reqAPIKey r = apiKey /\
   exists type cta,
     decoded = Some (type, cta) /\ String.length type = 3%nat) /\
  (status <> StatusOK -> status <> StatusInternalServerError ->
   disk after = disk w /\ fileOps after = fileOps w /\
   (status <> StatusUnauthorized -> after = w) /\
   (status = StatusUnauthorized ->
    after =
    Log ("Intento de acceso no autorizado desde " +:+ reqRemoteAddr r) w)).
Proof.
  cbv zeta. unfold handleSequence.
  destruct (String.eqb_spec (reqMethod r) "POST") as [Hmethod | Hmethod];
    cbn [negb]; [| settle_guards].
  destruct (String.eqb_spec (reqAPIKey r) apiKey) as [Hkey | Hkey];
    cbn [negb]; [| settle_guards].
  destruct (decodeSequenceRequest (reqBody r)) as [[type cta] |];
    [| settle_guards].
  destruct (Nat.eqb_spec (String.length type) 3) as [Hlen | Hlen];
    cbn [negb]; [| settle_guards].
  destruct (GetSequence type (defaultCTA cta) w) as [[[sequence n] [err |]] w'];
    settle_guards.
Qed.

Lemma firstByte_differs (a b : ascii) s1 s2 :
  a <> b -> String a s1 <> String b s2.
Proof. intros Hab [= Heq _]. contradiction. Qed.


(** X14: a response 200 of the handler of [/api/sequence] carries the
    type of the request, of 3 bytes, followed by the number padded with
    zeros, and the number in decimal: the first 3 bytes of the sequence
    are the type, what follows them and [sequenceNumber] both read back as
    the number, and the sequence has 13 bytes when the number is below
    10^10 and not negative. *)
Theorem handleSequence_ok_format apiKey r (w : World File) :
  respStatus (fst (handleSequence apiKey r w)) = StatusOK ->
  exists type cta n,
    decodeSequenceRequest (reqBody r) = Some (type, cta) /\
    String.length type = 3%nat /\
    respBody (fst (handleSequence apiKey r w)) =
      BodySequence (type +:+ Fmt.pad010d n) (Strconv.FormatInt n) /\
    sliceTo 3 (type +:+ Fmt.pad010d n) = type /\
    Strconv.ParseInt (sliceFrom 3 (type +:+ Fmt.pad010d n)) = (n, None) /\
    Strconv.ParseInt (Strconv.FormatInt n) = (n, None) /\
    (0 <= n < 10 ^ 10 ->
     String.length (type +:+ Fmt.pad010d n) = 13%nat).
Proof.
  unfold handleSequence.
  destruct (negb (String.eqb (reqMethod r) "POST")); [discriminate |].
  destruct (negb (String.eqb (reqAPIKey r) apiKey)); [discriminate |].
  destruct (decodeSequenceRequest (reqBody r)) as [[type cta] |];
    [| discriminate].
  destruct (Nat.eqb_spec (String.length type) 3) as [Hlen | Hlen];
    cbn [negb]; [| discriminate].
  destruct (GetSequence type (defaultCTA cta) w)
    as [[[sequence n] [err |]] w'] eqn:Hcall; [discriminate |].
  intros _. cbn [fst respBody].
  destruct (GetSequence_success _ _ _ _ _ _ Hcall)
    as (t & f & i & t' & _ & _ & _ & Hn & _ & _ & Hseq & _).
  unfold Fmt.Sprintf_s_010d in Hseq. subst sequence.
  assert (Hint : isInt64 n) by (rewrite Hn; apply add64_isInt64).
  exists type, cta, n. split; [reflexivity |]. split; [exact Hlen |].
  split; [reflexivity |].
  split; [rewrite <- Hlen; apply sliceTo_append |]. split.
  - rewrite <- Hlen, sliceFrom_append. now apply ParseInt_pad010d.
  - split; [now apply ParseInt_FormatInt |].
    intros Hsmall. now rewrite length_append, Hlen, length_pad010d.
Qed.

(** X15: the handler of [/api/tipos] never changes the table file and
    never saves; a response 200 carries the decoding of every record
    that is not deleted, in file order, and writes nothing to the log. *)
Theorem handleTipos_read_only apiKey r (w : World File) :
  disk (snd (handleTipos apiKey r w)) = disk w /\
  (fileOps (snd (handleTipos apiKey r w)) = fileOps w \/
   fileOps (snd (handleTipos apiKey r w)) = (fileOps w ++ [OpOpen])%list) /\
  (respStatus (fst (handleTipos apiKey r w)) = StatusOK ->
   sequenceLog (snd (handleTipos apiKey r w)) = sequenceLog w /\
   exists t,
     NewFromFile (disk w) = inl t /\
     respBody (fst (handleTipos apiKey r w)) =
       BodyTipos (List.map (decodeRecord t) (liveRecords t))).
Proof.
  unfold handleTipos.
  destruct (negb (String.eqb (reqMethod r) "GET"));
    [split; [reflexivity |]; split; [now left | discriminate] |].
  destruct (negb (String.eqb (reqAPIKey r) apiKey));
    [split; [reflexivity |]; split; [now left | discriminate] |].
  unfold GetRecordTypes.
  destruct (NewFromFile (disk w)) as [t | e]; cbn [fst snd].
  - split; [reflexivity |]. split; [now right |]. intros _.
    split; [reflexivity |]. exists t. split; [reflexivity |].
    cbn [respBody]. now rewrite listRecords_spec.
  - split; [reflexivity |]. split; [now right | discriminate].
Qed.

Lemma scanRecordsV1_scanRecords (t : Table) tipo remaining : forall i,
  scanRecordsV1 t tipo i remaining = scanRecords t tipo "NUMERO_1" i remaining.
Proof.
  induction remaining as [|remaining IH]; intros i; [reflexivity |].
  cbn [scanRecordsV1 scanRecords]. rewrite IH. reflexivity.
Qed.

Lemma GetSequenceV1_GetSequence tipo (w : World File) :
  GetSequenceV1 tipo w =
  (dropNumberResult (fst (GetSequence tipo "A" w)),
   snd (GetSequence tipo "A" w)).
Proof.
  unfold GetSequenceV1, GetSequence.
  change (channelField "A") with (Some "NUMERO_1").
  destruct (NewFromFile (disk w)) as [t | e]; [| reflexivity].
  rewrite scanRecordsV1_scanRecords.
  destruct (scanRecords t tipo "NUMERO_1" 0 (NumberOfRecords t))
    as [i n t' | e |]; [| reflexivity | reflexivity].
  destruct (SaveToFile t' (disk w)) as [d' [e |]]; reflexivity.
Qed.

(** X16: the earlier [GetSequence], with one argument, is the present one
    on the channel [A] without the number; a body that the present
    handler of [/api/sequence] decodes, the earlier handler decodes too,
    to the same type; and for a request whose body the present handler
    decodes to a type that starts with [E] and a [cta] that is not [B],
    the earlier handler answers as the present one does, with the same
    status, the same effect on the file and the log, and the same body
    without [sequenceNumber]. *)
Theorem handleSequenceV1_agrees apiKey r (w : World File) :
  (forall tipo,
     GetSequenceV1 tipo w =
     (dropNumberResult (fst (GetSequence tipo "A" w)),
      snd (GetSequence tipo "A" w))) /\
  (forall type cta,
     decodeSequenceRequest (reqBody r) = Some (type, cta) ->
     decodeSequenceRequestV1 (reqBody r) = Some type) /\
  (forall type cta,
     decodeSequenceRequest (reqBody r) = Some (type, cta) ->
     Strings.HasPrefix type "E" = true -> cta <> "B" ->
     handleSequenceV1 apiKey r w =
     (mkResponse (respStatus (fst (handleSequence apiKey r w)))
        (dropNumber (respBody (fst (handleSequence apiKey r w)))),
      snd (handleSequence apiKey r w))).
Proof.
  split; [intros tipo; apply GetSequenceV1_GetSequence |].
  split; [intros type cta; apply decodeSequenceRequest_earlier |].
  intros type cta Hbody HE HB. unfold handleSequenceV1, handleSequence.
  destruct (negb (String.eqb (reqMethod r) "POST")); [reflexivity |].
  destruct (negb (String.eqb (reqAPIKey r) apiKey)); [reflexivity |].
  rewrite (decodeSequenceRequest_earlier _ _ _ Hbody), Hbody, HE.
  cbn [negb orb].
  destruct (negb (String.length type =? 3)%nat); [reflexivity |].
  rewrite GetSequenceV1_GetSequence, (defaultCTA_not_B cta HB).
  destruct (GetSequence type "A" w) as [[[sequence n] [err |]] w'];
    reflexivity.
Qed.

End Handlers.

(** ** The service loop *)

Lemma serviceLoop_running requests :
  (forall c, In c requests -> stops c = false) ->
  snd (serviceLoop requests) = false /\
  ~ In StartServer (fst (serviceLoop requests)) /\
  ~ In StopServer (fst (serviceLoop requests)).
Proof.
  induction requests as [|c requests IH]; intros Hrun.
  - cbn. tauto.
  - assert (Hc : stops c = false) by (apply Hrun; now left).
    destruct IH as (Hleft & Hstart & Hstop);
      [intros x Hx; apply Hrun; now right |].
    unfold stops in Hc. cbn [serviceLoop].
    destruct (serviceLoop requests) as [events left].
    cbn [fst snd] in *.
    destruct (RequestCmd c); try discriminate Hc; cbn [fst snd];
      (split; [exact Hleft |]; split; intros [Hin | Hin];
       try discriminate Hin; contradiction).
Qed.

Lemma serviceLoop_stopped before c after :
  (forall x, In x before -> stops x = false) -> stops c = true ->
  serviceLoop (before ++ c :: after) =
  ((fst (serviceLoop before) ++
    [Printed "Recibida señal de STOP/SHUTDOWN, cerrando el servidor.";
     StopServer])%list, true).
Proof.
  intros Hrun Hc. induction before as [|x before IH].
  - unfold stops in Hc. cbn [app serviceLoop fst].
    destruct (RequestCmd c); try discriminate Hc; reflexivity.
  - assert (Hx : stops x = false) by (apply Hrun; now left).
    cbn [app serviceLoop]. rewrite IH by (intros y Hy; apply Hrun; now right).
    unfold stops in Hx. destruct (serviceLoop before) as [events left].
    destruct (RequestCmd x); try discriminate Hx; reflexivity.
Qed.

(** X17: while no request is a stop or a shutdown, [Execute] has not
    returned, and after announcing the start it has started the HTTP
    server once and never stopped it, whatever pauses it was sent. At the
    first stop or shutdown it stops the server, once, sends the status
    [StopPending] and returns [(false, 0)]; the requests after it are not
    read. *)
Theorem Execute_stops_once before :
  (forall x, In x before -> stops x = false) ->
  (exists events,
     Execute before =
       (([Sent (mkStatus StartPending 0); StartServer;
          Sent (mkStatus Running cmdsAccepted)] ++ events)%list, None) /\
     ~ In StartServer events /\ ~ In StopServer events) /\
  (forall c after,
     stops c = true ->
     Execute (before ++ c :: after) = Execute (before ++ [c]) /\
     exists events,
       Execute (before ++ c :: after) =
         (([Sent (mkStatus StartPending 0); StartServer;
            Sent (mkStatus Running cmdsAccepted)] ++ events ++
           [Printed "Recibida señal de STOP/SHUTDOWN, cerrando el servidor.";
            StopServer; Sent (mkStatus StopPending 0)])%list,
          Some (false, 0)) /\
       ~ In StartServer events /\ ~ In StopServer events).
Proof.
  intros Hrun. destruct (serviceLoop_running before Hrun) as (Hleft & Hstart & Hstop).
  split.
  - exists (fst (serviceLoop before)). split; [| split; assumption].
    unfold Execute. destruct (serviceLoop before) as [events left].
    cbn [fst snd] in *. now subst left.
  - intros c after Hc. unfold Execute.
    rewrite !(serviceLoop_stopped before c) by assumption.
    split; [reflexivity |].
    exists (fst (serviceLoop before)). split; [| split; assumption].
    cbn [app]. now rewrite <- !app_assoc.
Qed.

Lemma Execute_pause_then_stop :
  Execute [mkChangeRequest CmdPause (mkStatus Running cmdsAccepted);
           mkChangeRequest CmdStop (mkStatus Paused cmdsAccepted);
           mkChangeRequest CmdContinue (mkStatus Paused cmdsAccepted)]
  = Execute [mkChangeRequest CmdPause (mkStatus Running cmdsAccepted);
             mkChangeRequest CmdStop (mkStatus Paused cmdsAccepted)].
Proof.
  apply (proj2 (Execute_stops_once
                  [mkChangeRequest CmdPause (mkStatus Running cmdsAccepted)]
                  ltac:(intros x [<- | []]; reflexivity))
           (mkChangeRequest CmdStop (mkStatus Paused cmdsAccepted))
           [mkChangeRequest CmdContinue (mkStatus Paused cmdsAccepted)]
           eq_refl).
Defined.

(** ** The statistics of the load test *)

Section LoadTestFacts.

Context {Float64 : Type} (zeroFloat : Float64) (perSecond : Z -> Z -> Float64).

Lemma collect_app results r :
  collect zeroFloat (results ++ [r])
  = addResult (collect zeroFloat results) r.
Proof. unfold collect. now rewrite fold_left_app. Qed.

Lemma length_filter_le {A} (p : A -> bool) (l : list A) :
  (length (List.filter p l) <= length l)%nat.
Proof.
  induction l as [|a l IH]; [reflexivity |].
  cbn [List.filter]. destruct (p a); cbn [length]; lia.
Qed.

Lemma collect_invariant results :
  Z.of_nat (length results) <= MaxInt64 ->
  TotalRequests (collect zeroFloat results) = Z.of_nat (length results) /\
  SuccessfulReqs (collect zeroFloat results)
  = Z.of_nat (length (List.filter succeeded results)) /\
  FailedReqs (collect zeroFloat results)
  = Z.of_nat (length (List.filter (fun r => negb (succeeded r)) results)) /\
  DuplicateSeqs (collect zeroFloat results) = 0 /\
  (forall r, In r results -> succeeded r = true ->
     MinDuration (collect zeroFloat results) <= Duration r
     <= MaxDuration (collect zeroFloat results)).
Proof.
  induction results as [|r results IH] using rev_ind; intros Hlen.
  - cbn. repeat split; try reflexivity; contradiction.
  - rewrite length_app in Hlen. cbn [length] in Hlen.
    destruct IH as (Htotal & Hok & Hfailed & Hdup & Hbounds); [lia |].
    pose proof (length_filter_le succeeded results) as Hle1.
    pose proof (length_filter_le (fun r => negb (succeeded r)) results) as Hle2.
    rewrite collect_app, !List.filter_app, !length_app. unfold addResult.
    cbn [List.filter]. unfold MinInt64, MaxInt64 in *.
    destruct (succeeded r) eqn:Hr;
      cbn [negb length TotalRequests SuccessfulReqs FailedReqs DuplicateSeqs
             MinDuration MaxDuration];
      rewrite ?Htotal, ?Hok, ?Hfailed;
      rewrite ?add64_succ by (unfold MinInt64, MaxInt64; lia).
    + split; [lia |]. split; [lia |]. split; [lia |]. split; [exact Hdup |].
      intros x Hx Hsucc. apply in_app_or in Hx as [Hx | [<- | []]].
      * specialize (Hbounds x Hx Hsucc).
        destruct (Z.ltb_spec (Duration r) (MinDuration (collect zeroFloat results)));
          destruct (Z.ltb_spec (MaxDuration (collect zeroFloat results)) (Duration r));
          lia.
      * destruct (Z.ltb_spec (Duration r) (MinDuration (collect zeroFloat results)));
          destruct (Z.ltb_spec (MaxDuration (collect zeroFloat results)) (Duration r));
          lia.
    + split; [lia |]. split; [lia |]. split; [lia |]. split; [exact Hdup |].
      intros x Hx Hsucc. apply in_app_or in Hx as [Hx | [<- | []]].
      * exact (Hbounds x Hx Hsucc).
      * congruence.
Qed.

(** X18: after the results of a run are added, [TotalRequests] is their
    number, [SuccessfulReqs] the number of those without error and with
    the status 200, [FailedReqs] the number of the others, so that the
    two add up to the total; and the duration of every successful result
    lies between [MinDuration] and [MaxDuration]. *)
Theorem collect_counts results :
  Z.of_nat (length results) <= MaxInt64 ->
  TotalRequests (collect zeroFloat results) = Z.of_nat (length results) /\
  SuccessfulReqs (collect zeroFloat results)
  = Z.of_nat (length (List.filter succeeded results)) /\
  SuccessfulReqs (collect zeroFloat results)
  + FailedReqs (collect zeroFloat results)
  = TotalRequests (collect zeroFloat results) /\
  (forall r, In r results -> succeeded r = true ->
     MinDuration (collect zeroFloat results) <= Duration r
     <= MaxDuration (collect zeroFloat results)).
Proof.
  intros Hlen.
  destruct (collect_invariant results Hlen)
    as (Htotal & Hok & Hfailed & _ & Hbounds).
  split; [exact Htotal |]. split; [exact Hok |]. split; [| exact Hbounds].
  rewrite Htotal, Hok, Hfailed. clear.
  induction results as [|r results IH]; [reflexivity |].
  cbn [List.filter length]. destruct (succeeded r); cbn [negb length]; lia.
Qed.

(** The workers recorded for a sequence are as many as the results that
    count it. *)
Lemma collect_sequences results q :
  match UniqueSequences (collect zeroFloat results) !! q with
  | None => count_occ string_dec (countedSequences results) q = O
  | Some workers =>
      length workers = count_occ string_dec (countedSequences results) q /\
      (1 <= length workers)%nat
  end.
Proof.
  induction results as [|r results IH] using rev_ind.
  - cbn. now rewrite lookup_empty.
  - rewrite collect_app. unfold countedSequences in *.
    rewrite List.filter_app, List.map_app, count_occ_app. unfold addResult.
    cbn [List.filter]. destruct (succeeded r); cbn [andb UniqueSequences].
    2:{ cbn [List.map count_occ]. rewrite Nat.add_0_r. exact IH. }
    destruct (String.eqb_spec (Sequence r) EmptyString) as [Hempty | Hseq];
      cbn [negb].
    { cbn [List.map count_occ]. rewrite Nat.add_0_r. exact IH. }
    cbn [List.map count_occ].
    destruct (string_dec (Sequence r) q) as [<- | Hq].
    + rewrite lookup_insert_eq, length_app. cbn [length].
      destruct (UniqueSequences (collect zeroFloat results) !! Sequence r)
        as [workers |]; cbn [default length].
      * destruct IH as [IH _]. unfold id. lia.
      * rewrite IH. lia.
    + rewrite lookup_insert_ne by exact Hq. rewrite Nat.add_0_r. exact IH.
Qed.

Lemma size_le_counted (results : list Result) :
  (size (UniqueSequences (collect zeroFloat results)) <= length results)%nat.
Proof.
  induction results as [|r results IH] using rev_ind.
  - cbn. rewrite map_size_empty. lia.
  - rewrite collect_app, length_app. cbn [length]. unfold addResult.
    destruct (succeeded r); cbn [UniqueSequences]; [| lia].
    destruct (String.eqb (Sequence r) EmptyString); [lia |].
    rewrite map_size_insert.
    destruct (UniqueSequences (collect zeroFloat results) !! Sequence r);
      cbn; lia.
Qed.

Lemma countDuplicates_zero (m : gmap string (list Z)) :
  Z.of_nat (size m) <= MaxInt64 ->
  0 <= countDuplicates m 0 <= Z.of_nat (size m) /\
  (countDuplicates m 0 = 0 <->
   forall q workers, m !! q = Some workers -> (length workers <= 1)%nat).
Proof.
  unfold countDuplicates.
  apply (map_fold_weak_ind
           (fun count (m : gmap string (list Z)) =>
              Z.of_nat (size m) <= MaxInt64 ->
              0 <= count <= Z.of_nat (size m) /\
              (count = 0 <->
               forall q workers,
                 m !! q = Some workers -> (length workers <= 1)%nat))).
  - intros _. rewrite map_size_empty. split; [lia |].
    split; [| reflexivity]. intros _ q workers Hq.
    rewrite lookup_empty in Hq. discriminate.
  - intros q workers m' count Hfresh IH Hsize.
    rewrite (map_size_insert_None _ _ _ Hfresh) in Hsize |- *.
    destruct IH as [Hrange Hzero]; [lia |].
    destruct (Nat.ltb_spec 1 (length workers)) as [Hmany | Hone].
    + rewrite add64_succ by (unfold MinInt64, MaxInt64 in *; lia).
      split; [lia |]. split; [lia |].
      intros Hall. specialize (Hall q workers (lookup_insert_eq _ _ _)). lia.
    + split; [lia |]. rewrite Hzero. split.
      * intros Hall q' workers' Hq'.
        destruct (decide (q = q')) as [<- | Hne].
        -- rewrite lookup_insert_eq in Hq'. injection Hq' as <-. exact Hone.
        -- rewrite lookup_insert_ne in Hq' by exact Hne. eauto.
      * intros Hall q' workers' Hq'. apply (Hall q').
        rewrite lookup_insert_ne; [exact Hq' |]. congruence.
Qed.

(** X19: the load test reports no duplicate, [DuplicateSeqs = 0] after
    [calculateStats], exactly when the sequences of its successful
    results, the empty ones left out, are all different. *)
Theorem no_duplicates_iff_distinct results totalDuration :
  Z.of_nat (length results) <= MaxInt64 ->
  DuplicateSeqs (calculateStats perSecond totalDuration
                   (collect zeroFloat results)) = 0
  <-> List.NoDup (countedSequences results).
Proof.
  intros Hlen. cbn [calculateStats DuplicateSeqs].
  destruct (collect_invariant results Hlen) as (_ & _ & _ & -> & _).
  pose proof (size_le_counted results) as Hsize.
  destruct (countDuplicates_zero (UniqueSequences (collect zeroFloat results)))
    as [_ ->]; [lia |].
  rewrite (NoDup_count_occ string_dec). split.
  - intros Hall q. pose proof (collect_sequences results q) as Hq.
    destruct (UniqueSequences (collect zeroFloat results) !! q)
      as [workers |] eqn:Hlookup; [| lia].
    destruct Hq as [<- _]. exact (Hall q workers Hlookup).
  - intros Hall q workers Hlookup.
    pose proof (collect_sequences results q) as Hq.
    rewrite Hlookup in Hq. destruct Hq as [-> _]. apply Hall.
Qed.

End LoadTestFacts.

(** ** The further properties on examples *)


(** X14 on the scenario of the specification. *)
Lemma handleSequence_ok_on_reference_table :
  exists type cta n,
    decodeSequenceRequest (reqBody (Cases.post "E32" "")) = Some (type, cta) /\
    String.length type = 3%nat /\
    respBody (fst (handleSequence Cases.key (Cases.post "E32" "")
                     (Ref.world Ref.scenario))) =
      BodySequence (type +:+ Fmt.pad010d n) (Strconv.FormatInt n) /\
    sliceTo 3 (type +:+ Fmt.pad010d n) = type /\
    Strconv.ParseInt (sliceFrom 3 (type +:+ Fmt.pad010d n)) = (n, None) /\
    Strconv.ParseInt (Strconv.FormatInt n) = (n, None) /\
    (0 <= n < 10 ^ 10 ->
     String.length (type +:+ Fmt.pad010d n) = 13%nat).
Proof.
  apply (handleSequence_ok_format Cases.key (Cases.post "E32" "")
           (Ref.world Ref.scenario)).
  vm_compute. reflexivity.
Defined.

(** X16 on the scenario of the specification. *)
Lemma handleSequenceV1_on_reference_table :
  handleSequenceV1 Cases.key (Cases.post "E32" "") (Ref.world Ref.scenario) =
  (mkResponse
     (respStatus (fst (handleSequence Cases.key (Cases.post "E32" "")
                         (Ref.world Ref.scenario))))
     (dropNumber
        (respBody (fst (handleSequence Cases.key (Cases.post "E32" "")
                          (Ref.world Ref.scenario))))),
   snd (handleSequence Cases.key (Cases.post "E32" "")
          (Ref.world Ref.scenario))).
Proof.
  apply (proj2 (proj2 (handleSequenceV1_agrees Cases.key (Cases.post "E32" "")
                         (Ref.world Ref.scenario))) "E32" "");
    [reflexivity | reflexivity | discriminate].
Defined.

(** The two handlers part on a body whose [cta] is not a string: the
    present one cannot decode it and answers 400, the earlier one passes
    the [cta] over and allocates. *)
Example handlers_part_on_numeric_cta :
  decodeSequenceRequest (reqBody Cases.numericCTA) = None /\
  decodeSequenceRequestV1 (reqBody Cases.numericCTA) = Some "E32" /\
  fst (handleSequence Cases.key Cases.numericCTA (Ref.world Ref.scenario))
  = httpError "Solicitud inválida" StatusBadRequest /\
  fst (handleSequenceV1 Cases.key Cases.numericCTA (Ref.world Ref.scenario))
  = mkResponse StatusOK (BodySequenceV1 "E320000000006").
Proof.
  split; [reflexivity |]. split; [reflexivity |].
  split; vm_compute; reflexivity.
Qed.

(** The keys of a body are matched without regard to case, and a key
    that names no field is passed over. *)
Example decodeSequenceRequest_other_case :
  decodeSequenceRequest (reqBody Cases.otherCase) = Some ("E32", "B").
Proof. reflexivity. Qed.

(** X18 on a run of three results. *)
Lemma collect_counts_repeated :
  TotalRequests (collect tt Cases.repeated)
  = Z.of_nat (length Cases.repeated) /\
  SuccessfulReqs (collect tt Cases.repeated)
  = Z.of_nat (length (List.filter succeeded Cases.repeated)) /\
  SuccessfulReqs (collect tt Cases.repeated)
  + FailedReqs (collect tt Cases.repeated)
  = TotalRequests (collect tt Cases.repeated) /\
  (forall r, In r Cases.repeated -> succeeded r = true ->
     MinDuration (collect tt Cases.repeated) <= Duration r
     <= MaxDuration (collect tt Cases.repeated)).
Proof.
  apply (collect_counts tt Cases.repeated). unfold MaxInt64. cbn. lia.
Defined.

(** X19 on a run whose sequences are all different. *)
Lemma no_duplicates_distinct :
  DuplicateSeqs (calculateStats (fun _ _ => tt) 4000000
                   (collect tt Cases.distinct)) = 0.
Proof.
  apply (proj2 (no_duplicates_iff_distinct tt (fun _ _ => tt)
                  Cases.distinct 4000000 ltac:(unfold MaxInt64; cbn; lia))).
  constructor; [intros [Heq | []]; discriminate Heq |].
  constructor; [intros [] | constructor].
Defined.

Example duplicates_repeated :
  DuplicateSeqs (calculateStats (fun _ _ => tt) 4000000
                   (collect tt Cases.repeated)) = 1.
Proof. vm_compute. reflexivity. Qed.
